(** * URL citation parser (client/src/utils/urlCitationParser.ts)

    A shallow embedding of the four exported functions
    [extractUrlCitations], [parseMarkdownSources],
    [splitContentAndSources] and [extractAllUrlCitations], and the
    properties their specification states about them.

    Modelling choices.
    - A JavaScript string is a [list ascii]: the sequence of its code
      units, restricted to the units below 256.
    - The untyped inputs ([any], [any[]]) are values of [JsValue], a tree
      of JSON-like data.  Numbers are integers (the code only tests a
      number for truthiness and identity).
    - A property read on [null] or [undefined] raises a [TypeError]; the
      functions run in the error monad [outcome]. *)

From Stdlib Require Import Ascii String List Bool Arith ZArith Lia.
From Equations Require Import Equations.
Import ListNotations.

Set Implicit Arguments.
Set Warnings "-register-all".

(** ** JavaScript strings *)

Definition jsstring := list ascii.

Definition str (s : string) : jsstring := list_ascii_of_string s.

Definition LF : ascii := "010"%char.

Definition jsstring_eqb (a b : jsstring) : bool :=
  if list_eq_dec ascii_dec a b then true else false.

(** [s.startsWith(p)] *)
Fixpoint startsWith (p s : jsstring) : bool :=
  match p, s with
  | [], _ => true
  | _ :: _, [] => false
  | a :: p', b :: s' => Ascii.eqb a b && startsWith p' s'
  end.

(** White space and line terminators, the characters [trim] strips and
    the class [\s] matches: TAB, LF, VT, FF, CR, SPACE and NBSP. *)
Definition isWhiteSpace (c : ascii) : bool :=
  let n := nat_of_ascii c in
  ((9 <=? n) && (n <=? 13)) || (n =? 32) || (n =? 160).

Fixpoint trimStart (s : jsstring) : jsstring :=
  match s with
  | [] => []
  | c :: s' => if isWhiteSpace c then trimStart s' else s
  end.

Definition trimEnd (s : jsstring) : jsstring := rev (trimStart (rev s)).

(** [s.trim()] *)
Definition trim (s : jsstring) : jsstring := trimEnd (trimStart s).

(** [s.substring(0, n)] for [0 <= n]. *)
Definition substring0 (n : nat) (s : jsstring) : jsstring := firstn n s.

(** ** JavaScript values *)

Inductive JsValue : Type :=
| JUndefined
| JNull
| JBool (b : bool)
| JNum (n : Z)
| JStr (s : jsstring)
| JArr (elems : list JsValue)
| JObj (fields : list (string * JsValue)).

(** [ToBoolean] *)
Definition truthy (v : JsValue) : bool :=
  match v with
  | JUndefined | JNull => false
  | JBool b => b
  | JNum n => negb (n =? 0)%Z
  | JStr s => match s with [] => false | _ => true end
  | JArr _ | JObj _ => true
  end.

(** [typeof v === 'object'] *)
Definition typeofObject (v : JsValue) : bool :=
  match v with
  | JNull | JArr _ | JObj _ => true
  | _ => false
  end.

(** [typeof v === 'string'] *)
Definition typeofString (v : JsValue) : bool :=
  match v with
  | JStr _ => true
  | _ => false
  end.

(** [Array.isArray(v)] *)
Definition isArray (v : JsValue) : bool :=
  match v with
  | JArr _ => true
  | _ => false
  end.

Fixpoint lookupField (k : string) (fields : list (string * JsValue)) : JsValue :=
  match fields with
  | [] => JUndefined
  | (k', v) :: rest => if String.eqb k k' then v else lookupField k rest
  end.

(** ** Errors *)

Inductive JsError : Type :=
| TypeError.

Inductive outcome (A : Type) : Type :=
| Returns (a : A)
| Throws (e : JsError).

Arguments Returns {A} a.
Arguments Throws {A} e.

Definition bind {A B : Type} (m : outcome A) (k : A -> outcome B) : outcome B :=
  match m with
  | Returns a => k a
  | Throws e => Throws e
  end.

Notation "'let*' x ':=' m 'in' k" := (bind m (fun x => k))
  (at level 10, x pattern, m at level 100, k at level 200).

(** [for (const x of xs) body]: the loop body threads the local state. *)
Fixpoint forOf {A S : Type} (body : A -> S -> outcome S) (xs : list A) (st : S)
  : outcome S :=
  match xs with
  | [] => Returns st
  | x :: xs' => let* st' := body x st in forOf body xs' st'
  end.

(** [v.k] for one of the property names the parser reads
    ([annotations], [content], [url_citations], [url_citation], [url],
    [title], [snippet]); none of them is defined on a built-in prototype,
    so a read on a primitive or an array yields [undefined]. *)
Definition getProp (v : JsValue) (k : string) : outcome JsValue :=
  match v with
  | JUndefined | JNull => Throws TypeError
  | JObj fields => Returns (lookupField k fields)
  | _ => Returns JUndefined
  end.

(** ** Citations *)

(** A field that the object literal does not mention is [None]; a field
    copied from a value that lacks it is [Some JUndefined]. *)
Record UrlCitation : Type := mkCitation {
  url : JsValue;
  title : option JsValue;
  snippet : option JsValue
}.

(** [SameValueZero], the equality of [Set].  Objects and arrays are
    compared by reference; a message is a tree without sharing (as
    [JSON.parse] builds it), so two of its objects are never the same
    reference. *)
Definition sameValueZero (a b : JsValue) : bool :=
  match a, b with
  | JUndefined, JUndefined => true
  | JNull, JNull => true
  | JBool x, JBool y => Bool.eqb x y
  | JNum x, JNum y => (x =? y)%Z
  | JStr x, JStr y => jsstring_eqb x y
  | _, _ => false
  end.

(** [Set<string>], in insertion order. *)
Definition UrlSet := list JsValue.

Definition setHas (s : UrlSet) (v : JsValue) : bool :=
  existsb (sameValueZero v) s.

Definition setAdd (s : UrlSet) (v : JsValue) : UrlSet :=
  if setHas s v then s else s ++ [v].

(** The two locals [citations] and [seenUrls] of both extractors. *)
Record Acc : Type := mkAcc {
  citations : list UrlCitation;
  seenUrls : UrlSet
}.

Definition emptyAcc : Acc := mkAcc [] [].

(** [citations.push(c); seenUrls.add(c.url)] *)
Definition pushCitation (c : UrlCitation) (st : Acc) : Acc :=
  mkAcc (citations st ++ [c]) (setAdd (seenUrls st) (url c)).

(** ** extractUrlCitations *)

(** Elements of an array value, for [for ... of] after [Array.isArray]. *)
Definition arrayElems (v : JsValue) : list JsValue :=
  match v with
  | JArr elems => elems
  | _ => []
  end.

(** Format 1, the body of the inner loop over [annotation.url_citations]. *)
Definition format1Step (citation : JsValue) (st : Acc) : outcome Acc :=
  if truthy citation then
    let* u := getProp citation "url" in
    if truthy u && negb (setHas (seenUrls st) u) then
      let* t := getProp citation "title" in
      let* s := getProp citation "snippet" in
      Returns (pushCitation (mkCitation u (Some t) (Some s)) st)
    else Returns st
  else Returns st.

Definition format1 (annotation : JsValue) (st : Acc) : outcome Acc :=
  let* ucs := getProp annotation "url_citations" in
  if isArray ucs then forOf format1Step (arrayElems ucs) st else Returns st.

(** Format 2, the single [annotation.url_citation] object. *)
Definition format2 (annotation : JsValue) (st : Acc) : outcome Acc :=
  let* uc := getProp annotation "url_citation" in
  if truthy uc then
    let* u := getProp uc "url" in
    if truthy u then
      let* t := getProp uc "title" in
      let* s := getProp uc "snippet" in
      if negb (setHas (seenUrls st) u) then
        Returns (pushCitation (mkCitation u (Some t) (Some s)) st)
      else Returns st
    else Returns st
  else Returns st.

(** Format 3, the [url], [title] and [snippet] of the annotation itself. *)
Definition format3 (annotation : JsValue) (st : Acc) : outcome Acc :=
  let* u := getProp annotation "url" in
  if truthy u && negb (setHas (seenUrls st) u) then
    let* t := getProp annotation "title" in
    let* s := getProp annotation "snippet" in
    Returns (pushCitation (mkCitation u (Some t) (Some s)) st)
  else Returns st.

(** The body of the loop over [annotations]. *)
Definition annotationStep (annotation : JsValue) (st : Acc) : outcome Acc :=
  if negb (truthy annotation) || negb (typeofObject annotation) then Returns st
  else
    let* st1 := format1 annotation st in
    let* st2 := format2 annotation st1 in
    format3 annotation st2.

Definition extractUrlCitations (annotations : JsValue) : outcome (list UrlCitation) :=
  if negb (truthy annotations) || negb (isArray annotations) then Returns []
  else
    let* st := forOf annotationStep (arrayElems annotations) emptyAcc in
    Returns (citations st).

(** ** parseMarkdownSources *)

(** A character class negated on one character followed by [+] or [*]
    and then by that character: the longest run of other characters,
    and what follows it.  The run cannot be cut short by backtracking,
    since the character after a shorter run is not the closing one. *)
Fixpoint spanNot (c : ascii) (s : jsstring) : jsstring * jsstring :=
  match s with
  | [] => ([], [])
  | x :: s' =>
      if Ascii.eqb x c then ([], s)
      else let (run, rest) := spanNot c s' in (x :: run, rest)
  end.

(** One match: the two capture groups, and the text after the match. *)
Record LinkMatch : Type := mkLink {
  label : jsstring;
  dest : jsstring;
  after : jsstring
}.

(** The pattern [\[([^\]]+)\]\(([^)]+)\)] tried at the head of [s]. *)
Definition matchLinkHere (s : jsstring) : option LinkMatch :=
  match s with
  | "["%char :: s1 =>
      match spanNot "]"%char s1 with
      | ((_ :: _) as lbl, "]"%char :: "("%char :: s2) =>
          match spanNot ")"%char s2 with
          | ((_ :: _) as dst, ")"%char :: rest) => Some (mkLink lbl dst rest)
          | _ => None
          end
      | _ => None
      end
  | _ => None
  end.

(** [markdownLinkRegex.exec(content)] with the [g] flag: [s] is the
    text from [lastIndex] on, the result is the leftmost match in it,
    and [after] of the result is the text from the new [lastIndex]. *)
Fixpoint markdownLinkRegex_exec (s : jsstring) : option LinkMatch :=
  match matchLinkHere s with
  | Some m => Some m
  | None =>
      match s with
      | [] => None
      | _ :: s' => markdownLinkRegex_exec s'
      end
  end.

Definition inspect {A : Type} (a : A) : {b : A | a = b} := exist _ a eq_refl.

(** A link the pattern matches at the head of [s], in words: an opening
    bracket, a non-empty label free of closing brackets, a closing
    bracket, an opening parenthesis, a non-empty destination free of
    closing parentheses, a closing parenthesis. *)
Definition linkAtHead (s : jsstring) (m : LinkMatch) : Prop :=
  s = str "[" ++ label m ++ str "](" ++ dest m ++ str ")" ++ after m /\
  label m <> [] /\ ~ In "]"%char (label m) /\
  dest m <> [] /\ ~ In ")"%char (dest m).

Ltac head_char H c lit :=
  destruct (Ascii.eqb_spec c lit) as [->|?];
  [| exfalso; destruct c as [[] [] [] [] [] [] [] []];
     try discriminate H; congruence].

Lemma spanNot_spec (c : ascii) (s : jsstring) :
  s = fst (spanNot c s) ++ snd (spanNot c s) /\
  ~ In c (fst (spanNot c s)) /\
  match snd (spanNot c s) with [] => True | x :: _ => x = c end.
Proof.
  induction s as [|x s IH]; simpl.
  - auto.
  - destruct (Ascii.eqb_spec x c) as [->|Hx]; simpl.
    + auto.
    + destruct (spanNot c s) as [run rest]; simpl in *.
      destruct IH as (-> & Hin & Hrest).
      repeat split; [|exact Hrest].
      intros [E|E]; [now apply Hx | now apply Hin].
Qed.

(** The matcher finds exactly the links of the pattern. *)
Lemma matchLinkHere_sound (s : jsstring) (m : LinkMatch) :
  matchLinkHere s = Some m -> linkAtHead s m.
Proof.
  unfold matchLinkHere, linkAtHead.
  destruct s as [|c s1]; [discriminate|]. intros H.
  head_char H c "["%char.
  destruct (spanNot_spec "]"%char s1) as (E1 & N1 & T1).
  destruct (spanNot "]"%char s1) as [lbl r1]; simpl in E1, N1, T1.
  destruct lbl as [|l0 lbl]; [discriminate|].
  destruct r1 as [|c1 r1]; [discriminate|]. subst c1.
  destruct r1 as [|c2 s2]; [discriminate|].
  head_char H c2 "("%char.
  destruct (spanNot_spec ")"%char s2) as (E2 & N2 & T2).
  destruct (spanNot ")"%char s2) as [dst r2]; simpl in E2, N2, T2.
  destruct dst as [|d0 dst]; [discriminate|].
  destruct r2 as [|c3 rest]; [discriminate|]. subst c3.
  injection H as <-. cbn [label dest after].
  repeat split; try assumption; try discriminate.
  rewrite E1, E2. reflexivity.
Qed.

Lemma matchLinkHere_shorter (s : jsstring) (m : LinkMatch) :
  matchLinkHere s = Some m -> length (after m) < length s.
Proof.
  intros H. apply matchLinkHere_sound in H as [-> _].
  rewrite !length_app. simpl. lia.
Qed.

Lemma markdownLinkRegex_exec_eq (s : jsstring) :
  markdownLinkRegex_exec s =
  match matchLinkHere s with
  | Some m => Some m
  | None => match s with [] => None | _ :: s' => markdownLinkRegex_exec s' end
  end.
Proof. destruct s; reflexivity. Qed.

Lemma markdownLinkRegex_exec_shorter (s : jsstring) (m : LinkMatch) :
  markdownLinkRegex_exec s = Some m -> length (after m) < length s.
Proof.
  induction s as [|c s IH]; rewrite markdownLinkRegex_exec_eq.
  - destruct (matchLinkHere []) eqn:E; [|discriminate].
    intros H; injection H as <-. now apply matchLinkHere_shorter in E.
  - destruct (matchLinkHere (c :: s)) as [m'|] eqn:E.
    + intros H; injection H as <-. now apply matchLinkHere_shorter in E.
    + intros H. apply IH in H. simpl; lia.
Qed.

(** The object literal [{ url, title: title || url }]. *)
Definition markdownCitation (title0 url0 : jsstring) : UrlCitation :=
  mkCitation (JStr url0)
    (Some (if truthy (JStr title0) then JStr title0 else JStr url0))
    None.

(** The [while ((match = regex.exec(content)) !== null)] loop; [s] is
    the text from [lastIndex] on. *)
Equations? execLoop (s : jsstring) (acc : list UrlCitation) : list UrlCitation
  by wf (length s) lt :=
  execLoop s acc with inspect (markdownLinkRegex_exec s) := {
    | exist _ None _ => acc
    | exist _ (Some m) Hm =>
        execLoop (after m)
          (if truthy (JStr (dest m)) && startsWith (str "http") (dest m) then
             acc ++ [markdownCitation (label m) (dest m)]
           else acc) }.
Proof. now apply markdownLinkRegex_exec_shorter. Qed.

Definition parseMarkdownSources (content : jsstring) : list UrlCitation :=
  if negb (truthy (JStr content)) then [] else execLoop content [].

(** All the matches of the pattern in [s], left to right, as
    [content.matchAll(markdownLinkRegex)] lists them. *)
Equations? markdownLinks (s : jsstring) : list LinkMatch by wf (length s) lt :=
  markdownLinks s with inspect (markdownLinkRegex_exec s) := {
    | exist _ None _ => []
    | exist _ (Some m) Hm => m :: markdownLinks (after m) }.
Proof. now apply markdownLinkRegex_exec_shorter. Qed.

(** ** splitContentAndSources *)

(** The literal head of the pattern, [\n\n\*\*Sources\*\*\n]. *)
Definition sourcesMarker : jsstring :=
  [LF; LF] ++ str "**Sources**" ++ [LF].

(** [content.match(/\n\n\*\*Sources\*\*\n[\s\S]*$/)]: without the
    [g] flag the result is the leftmost match; [[\s\S]*$] takes the
    whole rest of the string, so [sourcesMatch[0]] is the text from the
    leftmost marker to the end. *)
Fixpoint sourcesRegexMatch (s : jsstring) : option jsstring :=
  if startsWith sourcesMarker s then Some s
  else match s with
       | [] => None
       | _ :: s' => sourcesRegexMatch s'
       end.

Record SplitResult : Type := mkSplit {
  content : jsstring;
  sources : jsstring
}.

(** On a value that is not a string, [content.match] is [undefined] or
    the read itself fails, and the call raises a [TypeError]. *)
Definition splitContentAndSources (c : JsValue) : outcome SplitResult :=
  match c with
  | JStr s =>
      match sourcesRegexMatch s with
      | None => Returns (mkSplit s [])
      | Some sourcesMatch0 =>
          let srcs := trim sourcesMatch0 in
          let cleanContent := trim (substring0 (length s - length srcs) s) in
          Returns (mkSplit cleanContent srcs)
      end
  | _ => Throws TypeError
  end.

(** ** extractAllUrlCitations *)

(** The body of both merging loops. *)
Definition mergeStep (citation : UrlCitation) (st : Acc) : outcome Acc :=
  if negb (setHas (seenUrls st) (url citation)) then
    Returns (pushCitation citation st)
  else Returns st.

(** What follows the call of [splitContentAndSources] in approach 2. *)
Definition afterSplit (r : SplitResult) (st : Acc) : outcome Acc :=
  if truthy (JStr (sources r)) then
    forOf mergeStep (parseMarkdownSources (sources r)) st
  else Returns st.

(** Approach 1: the [annotations] attribute. *)
Definition annotationStage (message : JsValue) (st : Acc) : outcome Acc :=
  let* anns := getProp message "annotations" in
  if truthy anns then
    let* annotationCitations := extractUrlCitations anns in
    forOf mergeStep annotationCitations st
  else Returns st.

(** Approach 2: the markdown sources of [message.content], given the
    value [c] of that property. *)
Definition markdownStage (c : JsValue) (st : Acc) : outcome Acc :=
  if truthy c && typeofString c then
    let* r := splitContentAndSources c in
    afterSplit r st
  else Returns st.

Definition extractAllUrlCitations (message : JsValue) : outcome (list UrlCitation) :=
  let* st1 := annotationStage message emptyAcc in
  let* c := getProp message "content" in
  let* st2 := markdownStage c st1 in
  Returns (citations st2).

(** ** The UrlCitations component
    (client/src/components/Chat/Messages/Content/UrlCitations.tsx)

    The data the component computes from its [citations] property: the
    list [validCitations] and the text of each link.  Class names and
    icons do not depend on the property and are left out. *)

(** The predicate of [filter]: [typeof c === 'object' && !!c.url]. *)
Definition isValidCitation (c : JsValue) : outcome bool :=
  if typeofObject c then
    let* u := getProp c "url" in
    Returns (truthy u)
  else Returns false.

(** [xs.filter(p)] for a predicate that can raise. *)
Fixpoint filterArr (p : JsValue -> outcome bool) (xs : list JsValue)
  : outcome (list JsValue) :=
  match xs with
  | [] => Returns []
  | x :: xs' =>
      let* keep := p x in
      let* rest := filterArr p xs' in
      Returns (if keep then x :: rest else rest)
  end.

(** [citations.filter(...).slice(0, 10)], with the default [[]] of the
    property when it is [undefined]; on any other value that is not an
    array, [citations.filter] is not a function. *)
Definition validCitations (citations0 : JsValue) : outcome (list JsValue) :=
  match citations0 with
  | JUndefined => Returns []
  | JArr xs =>
      let* kept := filterArr isValidCitation xs in
      Returns (firstn 10 kept)
  | _ => Throws TypeError
  end.

(** The text of a link, [citation.title || 'Source']. *)
Definition linkText (citation : JsValue) : outcome JsValue :=
  let* t := getProp citation "title" in
  Returns (if truthy t then t else JStr (str "Source")).

(** ** Vocabulary of the specification *)

(** The marker of a sources block starts at index [i] of [s]. *)
Definition markerAt (s : jsstring) (i : nat) : bool :=
  startsWith sourcesMarker (skipn i s).

Definition firstMarkerAt (s : jsstring) (i : nat) : Prop :=
  markerAt s i = true /\ forall j, j < i -> markerAt s j = false.

Definition lastMarkerAt (s : jsstring) (i : nat) : Prop :=
  markerAt s i = true /\ forall j, markerAt s j = true -> j <= i.

Definition noMarker (s : jsstring) : Prop :=
  forall j, markerAt s j = false.

(** The destination has the prefix [http]. *)
Definition isHttpLink (m : LinkMatch) : bool :=
  startsWith (str "http") (dest m).

(** The citation pushed for a match. *)
Definition citationOfLink (m : LinkMatch) : UrlCitation :=
  markdownCitation (label m) (dest m).

(** [null] or [undefined]. *)
Definition isNullish (v : JsValue) : bool :=
  match v with
  | JUndefined | JNull => true
  | _ => false
  end.

(** A property read where no error is possible: a value that is not an
    object has none of the properties. *)
Definition prop (v : JsValue) (k : string) : JsValue :=
  match v with
  | JObj fields => lookupField k fields
  | _ => JUndefined
  end.

(** The citation built from the [url], [title] and [snippet] of [v]. *)
Definition citationFrom (v : JsValue) : UrlCitation :=
  mkCitation (prop v "url") (Some (prop v "title")) (Some (prop v "snippet")).

(** [v] is a sub-record with a non-empty [url]. *)
Definition hasUrl (v : JsValue) : bool := truthy v && truthy (prop v "url").

(** Rule 1: the nested sequence [url_citations], in its order. *)
Definition rule1 (a : JsValue) : list UrlCitation :=
  map citationFrom (filter hasUrl (arrayElems (prop a "url_citations"))).

(** Rule 2: the single nested [url_citation]. *)
Definition rule2 (a : JsValue) : list UrlCitation :=
  if hasUrl (prop a "url_citation") then [citationFrom (prop a "url_citation")]
  else [].

(** Rule 3: the element's own [url]. *)
Definition rule3 (a : JsValue) : list UrlCitation :=
  if truthy (prop a "url") then [citationFrom a] else [].

(** A non-null structured record. *)
Definition isRecord (a : JsValue) : bool := truthy a && typeofObject a.

(** First occurrence wins: an element is kept unless the url of an
    element kept before it (or a url of [seen]) is the same. *)
Fixpoint firstWinsFrom (seen : UrlSet) (l : list UrlCitation) : list UrlCitation :=
  match l with
  | [] => []
  | c :: l' =>
      if setHas seen (url c) then firstWinsFrom seen l'
      else c :: firstWinsFrom (setAdd seen (url c)) l'
  end.

Definition firstWins (l : list UrlCitation) : list UrlCitation :=
  firstWinsFrom [] l.

(** Every citation the three rules find in [annotations], before any
    deduplication: elements in order, rules 1, 2, 3 within an element. *)
Definition annotationCandidates (annotations : JsValue) : list UrlCitation :=
  flat_map (fun a => if isRecord a then rule1 a ++ rule2 a ++ rule3 a else [])
    (arrayElems annotations).

(** The [sources] that [splitContentAndSources] isolates in [c], empty
    when [c] is not a string. *)
Definition sourcesOf (c : JsValue) : jsstring :=
  match splitContentAndSources c with
  | Returns r => sources r
  | Throws _ => []
  end.

(** Every citation of the markdown sources of [c]. *)
Definition markdownCandidates (c : JsValue) : list UrlCitation :=
  parseMarkdownSources (sourcesOf c).

(** All candidates of a message in the combined order. *)
Definition combinedCandidates (message : JsValue) : list UrlCitation :=
  annotationCandidates (prop message "annotations") ++
  markdownCandidates (prop message "content").

(** One turn of a merging loop as a function, and the whole loop. *)
Definition mergeInto (st : Acc) (c : UrlCitation) : Acc :=
  if setHas (seenUrls st) (url c) then st else pushCitation c st.

Definition mergeAll (l : list UrlCitation) (st : Acc) : Acc :=
  fold_left mergeInto l st.

(** The object a citation record stands for: [url] always, [title] and
    [snippet] when the literal mentions them. *)
Definition citationObject (c : UrlCitation) : JsValue :=
  JObj (("url"%string, url c) ::
        match title c with Some t => [("title"%string, t)] | None => [] end ++
        match snippet c with Some x => [("snippet"%string, x)] | None => [] end).

(** [v] is [null]. *)
Definition isNull (v : JsValue) : bool :=
  match v with
  | JNull => true
  | _ => false
  end.

(** An object, or array, whose [url] is truthy. *)
Definition isShown (c : JsValue) : bool :=
  typeofObject c && truthy (prop c "url").

(** Some url of [l] is the same as [u]. *)
Definition urlAmong (u : JsValue) (l : list UrlCitation) : bool :=
  existsb (fun c => sameValueZero u (url c)) l.

(** The number of white space characters at the end of [s]. *)
Definition trailingWhiteSpace (s : jsstring) : nat :=
  length s - length (trimEnd s).

(** A string of white space only. *)
Definition allWhiteSpace (s : jsstring) : bool := forallb isWhiteSpace s.

(** ** Sample inputs *)

Definition obj1 (k : string) (v : JsValue) : JsValue := JObj [(k, v)].

Definition cite2 (u t : string) : JsValue :=
  JObj [("url"%string, JStr (str u)); ("title"%string, JStr (str t))].

Definition answerWithSources : jsstring :=
  str "Answer" ++ sourcesMarker ++ str "- [Test](https://test.com)".

Definition twoBlocks : jsstring :=
  str "A" ++ sourcesMarker ++ str "x" ++ sourcesMarker ++ str "y".

Definition answerNoSources : jsstring := str "  just the answer".


Definition fileAndHttpLinks : jsstring := str "[F](file:///x) [H](https://h.com)".

Definition threeRules : JsValue :=
  JObj [("url_citations"%string, JArr [obj1 "url" (JStr (str "u1"))]);
        ("url_citation"%string, obj1 "url" (JStr (str "u2")));
        ("url"%string, JStr (str "u3"))].

(** The same url in the annotations, with a snippet, and in the
    markdown sources, without. *)
Definition sameUrlTwice : JsValue :=
  JObj [("annotations"%string,
         JArr [obj1 "url_citations"
                 (JArr [JObj [("url"%string, JStr (str "https://example.com"));
                              ("title"%string, JStr (str "Example"));
                              ("snippet"%string, JStr (str "About it"))]])]);
        ("content"%string,
         JStr (str "Answer" ++ sourcesMarker ++
               str "- [Other title](https://example.com)"))].

Definition twoAnnotations : JsValue :=
  JArr [obj1 "url" (JStr (str "https://a.com"));
        obj1 "url" (JStr (str "https://a.com"));
        obj1 "url_citation" (obj1 "url" (JStr (str "https://b.com")))].

Definition wikiLink : jsstring := str "[Foo](https://en.wikipedia.org/wiki/Foo_(bar))".

Definition linkOutsideSources : JsValue :=
  JObj [("content"%string, JStr (str "see [link](https://example.com)"))].

Definition sameLinkTwice : JsValue :=
  JObj [("content"%string,
         JStr (str "Answer" ++ sourcesMarker ++
               str "- [One](https://t.com) - [Two](https://t.com)"))].

(** ** The test suite's examples *)

Example test_url_citations_array :
  extractUrlCitations
    (JArr [obj1 "url_citations"
             (JArr [cite2 "https://example.com" "Example"])]) =
  Returns [mkCitation (JStr (str "https://example.com"))
             (Some (JStr (str "Example"))) (Some JUndefined)].
Proof. reflexivity. Qed.

Example test_parse_non_http :
  map url (parseMarkdownSources
    (str "- [File](file:///path) - [HTTP](https://example.com) - [FTP](ftp://example.com)")) =
  [JStr (str "https://example.com")].
Proof. reflexivity. Qed.

Example test_split :
  splitContentAndSources (JStr answerWithSources) =
  Returns (mkSplit (str "Answer")
             (str "**Sources**" ++ [LF] ++ str "- [Test](https://test.com)")).
Proof. reflexivity. Qed.

Example test_all_markdown :
  extractAllUrlCitations (obj1 "content" (JStr answerWithSources)) =
  Returns [mkCitation (JStr (str "https://test.com"))
             (Some (JStr (str "Test"))) None].
Proof. reflexivity. Qed.

Example test_all_empty : extractAllUrlCitations (JObj []) = Returns [].
Proof. reflexivity. Qed.

(** ** Facts about [trim] *)

Lemma trimStart_app_ws (w z : jsstring) :
  allWhiteSpace w = true -> trimStart (w ++ z) = trimStart z.
Proof.
  induction w as [|c w IH]; simpl; [reflexivity|].
  intros H. apply andb_true_iff in H as [Hc Hw].
  rewrite Hc. now apply IH.
Qed.

Lemma trimStart_ws (w : jsstring) : allWhiteSpace w = true -> trimStart w = [].
Proof.
  intros H. rewrite <- (app_nil_r w). now rewrite trimStart_app_ws.
Qed.

Lemma trimStart_keep (c : ascii) (z : jsstring) :
  isWhiteSpace c = false -> trimStart (c :: z) = c :: z.
Proof. intros H; simpl; now rewrite H. Qed.

(** What [trimStart] returns is empty or starts with a visible character. *)
Lemma trimStart_head (s : jsstring) :
  trimStart s = [] \/
  exists c r, trimStart s = c :: r /\ isWhiteSpace c = false.
Proof.
  induction s as [|c s IH]; simpl; [now left|].
  destruct (isWhiteSpace c) eqn:E; [exact IH|].
  right. now exists c, s.
Qed.

(** A visible character at the end stops [trimStart] at the latest there. *)
Lemma trimStart_app_keep (a z : jsstring) (c : ascii) :
  isWhiteSpace c = false ->
  trimStart (a ++ c :: z) = trimStart a ++ c :: z.
Proof.
  intros Hc. induction a as [|x a IH]; simpl.
  - now rewrite Hc.
  - destruct (isWhiteSpace x); [exact IH | reflexivity].
Qed.

Lemma trimEnd_app_ws (y w : jsstring) :
  allWhiteSpace w = true -> trimEnd (y ++ w) = trimEnd y.
Proof.
  intros H. unfold trimEnd. rewrite rev_app_distr, trimStart_app_ws; [reflexivity|].
  unfold allWhiteSpace in *. rewrite forallb_forall in *.
  intros x Hx. apply H. now apply in_rev.
Qed.

Lemma trimEnd_app_keep (a z : jsstring) (c : ascii) :
  isWhiteSpace c = false ->
  trimEnd (a ++ c :: z) = a ++ c :: trimEnd z.
Proof.
  intros Hc. unfold trimEnd.
  replace (a ++ c :: z) with ((a ++ [c]) ++ z) by now rewrite <- app_assoc.
  rewrite rev_app_distr, rev_app_distr. simpl.
  rewrite trimStart_app_keep by exact Hc.
  rewrite rev_app_distr. simpl. rewrite rev_involutive.
  now rewrite <- app_assoc.
Qed.

Lemma trimEnd_nil : trimEnd [] = [].
Proof. reflexivity. Qed.

Lemma trim_app_ws (x w : jsstring) :
  allWhiteSpace w = true -> trim (x ++ w) = trim x.
Proof.
  intros Hw. unfold trim.
  destruct (forallb isWhiteSpace x) eqn:Hx.
  - rewrite (trimStart_ws x Hx).
    rewrite trimStart_ws; [reflexivity|].
    unfold allWhiteSpace. rewrite forallb_app. now rewrite Hx.
  - assert (exists a c z, x = a ++ c :: z /\ isWhiteSpace c = false) as (a & c & z & -> & Hc).
    { clear Hw. induction x as [|c x IH]; [discriminate|].
      simpl in Hx. destruct (isWhiteSpace c) eqn:E.
      - destruct (IH Hx) as (a & c' & z & -> & Hc').
        now exists (c :: a), c', z.
      - now exists [], c, x. }
    rewrite <- app_assoc. simpl.
    rewrite !trimStart_app_keep by exact Hc.
    replace (trimStart a ++ c :: z ++ w) with ((trimStart a ++ c :: z) ++ w)
      by (rewrite <- app_assoc; reflexivity).
    now apply trimEnd_app_ws.
Qed.

(** The result of [trim] has no white space at either end. *)
Lemma trimEnd_last (s front : jsstring) (c : ascii) :
  trimEnd s = front ++ [c] -> isWhiteSpace c = false.
Proof.
  unfold trimEnd. intros H.
  apply (f_equal (@rev ascii)) in H.
  rewrite rev_involutive, rev_app_distr in H. simpl in H.
  destruct (trimStart_head (rev s)) as [E | (c' & r & E & Hc')]; rewrite E in H.
  - discriminate.
  - now injection H as -> _.
Qed.

Lemma trim_no_trailing (s front : jsstring) (c : ascii) :
  trim s = front ++ [c] -> isWhiteSpace c = false.
Proof. unfold trim. apply trimEnd_last. Qed.

Lemma trim_no_leading (s rest : jsstring) (c : ascii) :
  trim s = c :: rest -> isWhiteSpace c = false.
Proof.
  unfold trim.
  destruct (trimStart_head s) as [E | (c' & r & E & Hc')]; rewrite E.
  - discriminate.
  - change (c' :: r) with ([] ++ c' :: r).
    rewrite trimEnd_app_keep by exact Hc'. simpl.
    now intros H; injection H as -> _.
Qed.

(** A string that [trimEnd] leaves alone: so does it every non-empty
    tail of it. *)
Lemma trimEnd_fixed_tail (p t : jsstring) :
  trimEnd (p ++ t) = p ++ t -> t <> [] -> trimEnd t = t.
Proof.
  intros H Ht.
  destruct (exists_last Ht) as (front & c & ->).
  assert (isWhiteSpace c = false) as Hc.
  { apply (@trimEnd_last (p ++ front ++ [c]) (p ++ front)).
    rewrite H. now rewrite app_assoc. }
  rewrite trimEnd_app_keep by exact Hc. now rewrite trimEnd_nil.
Qed.

(** ** Facts about the sources pattern *)

Lemma startsWith_app (p s : jsstring) :
  startsWith p s = true -> exists rest, s = p ++ rest.
Proof.
  revert s. induction p as [|a p IH]; intros s H.
  - now exists s.
  - destruct s as [|b s]; [discriminate|]. simpl in H.
    apply andb_true_iff in H as [Hab Hp].
    apply Ascii.eqb_eq in Hab as ->.
    destruct (IH s Hp) as [rest ->]. now exists rest.
Qed.

Lemma sourcesRegexMatch_eq (s : jsstring) :
  sourcesRegexMatch s =
  if startsWith sourcesMarker s then Some s
  else match s with [] => None | _ :: s' => sourcesRegexMatch s' end.
Proof. destruct s; reflexivity. Qed.

Lemma markerAt_nil (i : nat) : markerAt [] i = false.
Proof. unfold markerAt. now rewrite skipn_nil. Qed.

Lemma sourcesRegexMatch_first (s : jsstring) (i : nat) :
  firstMarkerAt s i -> sourcesRegexMatch s = Some (skipn i s).
Proof.
  revert s. induction i as [|i IH]; intros s [Hi Hlt]; rewrite sourcesRegexMatch_eq.
  - unfold markerAt in Hi. cbn [skipn] in Hi. now rewrite Hi.
  - assert (markerAt s 0 = false) as H0 by (apply Hlt; lia).
    unfold markerAt in H0. cbn [skipn] in H0. rewrite H0.
    destruct s as [|c s]; [now rewrite markerAt_nil in Hi|].
    apply IH. split; [exact Hi|].
    intros j Hj. apply (Hlt (S j)). lia.
Qed.

Lemma sourcesRegexMatch_none (s : jsstring) :
  noMarker s -> sourcesRegexMatch s = None.
Proof.
  induction s as [|c s IH]; intros H; rewrite sourcesRegexMatch_eq.
  - reflexivity.
  - pose proof (H 0) as H0. unfold markerAt in H0. cbn [skipn] in H0. rewrite H0.
    apply IH. intros j. apply (H (S j)).
Qed.

Lemma sourcesRegexMatch_some (s m : jsstring) :
  sourcesRegexMatch s = Some m -> exists i, firstMarkerAt s i /\ m = skipn i s.
Proof.
  induction s as [|c s IH]; rewrite sourcesRegexMatch_eq.
  - discriminate.
  - destruct (startsWith sourcesMarker (c :: s)) eqn:E.
    + intros H; injection H as <-. exists 0. repeat split; [exact E|]. lia.
    + intros H. destruct (IH H) as (i & [Hi Hlt] & ->).
      exists (S i). repeat split; [exact Hi|].
      intros [|j] Hj; [exact E|]. apply Hlt. lia.
Qed.

(** Either some marker is the first one, or there is none. *)
Lemma marker_cases (s : jsstring) :
  (exists i, firstMarkerAt s i) \/ noMarker s.
Proof.
  destruct (sourcesRegexMatch s) as [m|] eqn:E.
  - left. destruct (sourcesRegexMatch_some s E) as (i & Hi & _). now exists i.
  - right. intros j. destruct (markerAt s j) eqn:Hj; [|reflexivity].
    exfalso. revert E. generalize dependent j.
    induction s as [|c s IH]; intros j Hj; [now rewrite markerAt_nil in Hj|].
    rewrite sourcesRegexMatch_eq.
    destruct (startsWith sourcesMarker (c :: s)) eqn:E0; [discriminate|].
    destruct j as [|j]; [unfold markerAt in Hj; cbn [skipn] in Hj; congruence|].
    now apply (IH j).
Qed.

(** [trim] of the text from a marker on: the two line feeds go, and the
    marker line stays whatever follows it. *)
Lemma trim_sources_block (rest : jsstring) :
  trim (sourcesMarker ++ rest) = str "**Sources**" ++ trimEnd (LF :: rest).
Proof.
  unfold trim. change (sourcesMarker ++ rest)
    with ([LF; LF] ++ (str "**Sources*" ++ "*"%char :: LF :: rest)).
  rewrite trimStart_app_ws by reflexivity.
  change (trimStart (str "**Sources*" ++ "*"%char :: LF :: rest))
    with (str "**Sources*" ++ "*"%char :: LF :: rest).
  now rewrite trimEnd_app_keep by reflexivity.
Qed.

(** The result of the split when a first marker is at [i]. *)
Lemma split_at_first (s : jsstring) (i : nat) :
  firstMarkerAt s i ->
  splitContentAndSources (JStr s) =
  Returns (mkSplit
    (trim (substring0 (length s - length (trim (skipn i s))) s))
    (trim (skipn i s))).
Proof.
  intros H. unfold splitContentAndSources.
  now rewrite (sourcesRegexMatch_first H).
Qed.

Lemma firstn_minus_tail (p t : jsstring) :
  firstn (length (p ++ t) - length t) (p ++ t) = p.
Proof.
  rewrite length_app.
  replace (length p + length t - length t) with (length p + 0) by lia.
  rewrite firstn_app_2. simpl. apply app_nil_r.
Qed.

Lemma skipn_app_length (p t : jsstring) : skipn (length p) (p ++ t) = t.
Proof.
  rewrite skipn_app, skipn_all, Nat.sub_diag. reflexivity.
Qed.

(** With no white space at the end of the input, the trimmed sources
    are the input from two characters after the marker's start. *)
Lemma split_clean_tail (s : jsstring) (i : nat) :
  markerAt s i = true -> trimEnd s = s ->
  trim (skipn i s) = skipn (i + 2) s /\
  substring0 (length s - length (trim (skipn i s))) s = firstn i s ++ [LF; LF].
Proof.
  intros Hi Hs. unfold markerAt in Hi.
  destruct (startsWith_app _ _ Hi) as [rest Hrest].
  pose proof (firstn_skipn i s) as Hsplit. rewrite Hrest in Hsplit.
  assert (length (firstn i s) = i) as Hlen.
  { apply firstn_length_le.
    destruct (Nat.le_gt_cases i (length s)) as [Hle|Hgt]; [exact Hle|].
    rewrite skipn_all2 in Hrest by lia. discriminate. }
  remember (firstn i s) as b eqn:Hb. clear Hb.
  set (t := str "**Sources**" ++ LF :: rest) in *.
  assert (s = (b ++ [LF; LF]) ++ t) as Hs2.
  { rewrite <- app_assoc. symmetry. exact Hsplit. }
  assert (trimEnd t = t) as Ht.
  { apply (@trimEnd_fixed_tail (b ++ [LF; LF]) t).
    - rewrite <- Hs2. exact Hs.
    - discriminate. }
  assert (trim (skipn i s) = t) as Htrim.
  { rewrite Hrest, trim_sources_block.
    change (str "**Sources**" ++ trimEnd (LF :: rest))
      with (str "**Sources*" ++ "*"%char :: trimEnd (LF :: rest)).
    rewrite <- trimEnd_app_keep by reflexivity. exact Ht. }
  rewrite Htrim. unfold substring0. rewrite Hs2.
  split.
  - replace (i + 2) with (length (b ++ [LF; LF]))
      by (rewrite length_app, Hlen; reflexivity).
    now rewrite skipn_app_length.
  - apply firstn_minus_tail.
Qed.

(** ** splitContentAndSources: the claims *)

(** C3, as stated, fails: with two marker lines the split is not at the
    last one.  In ["A\n\n**Sources**\nx\n\n**Sources**\ny"] the last
    marker starts at index 16, and neither field of the result is the
    trimmed text on its side of that index. *)
Lemma split_last_marker_counterexample :
  lastMarkerAt twoBlocks 16 /\
  exists r, splitContentAndSources (JStr twoBlocks) = Returns r /\
            sources r <> trim (skipn 16 twoBlocks) /\
            content r <> trim (firstn 16 twoBlocks).
Proof.
  split.
  - split; [reflexivity|].
    intros j H. destruct (le_gt_dec j 16) as [Hle|Hgt]; [exact Hle|].
    exfalso.
    do 32 (destruct j as [|j]; [try lia; vm_compute in H; discriminate H|]).
    vm_compute in H. discriminate H.
  - eexists. split; [reflexivity|]. split; vm_compute; discriminate.
Qed.

(** C3, amended: when the input contains the marker (a blank line, the
    line [**Sources**], a line feed), the split is at its FIRST
    occurrence: [sources] is the text from there to the end, trimmed,
    and, when the input does not end in white space, [content] is the
    text before it, trimmed. *)
Theorem split_at_first_marker (s : jsstring) (i : nat) :
  firstMarkerAt s i ->
  exists r, splitContentAndSources (JStr s) = Returns r /\
            sources r = trim (skipn i s) /\
            (trimEnd s = s -> content r = trim (firstn i s)).
Proof.
  intros H. rewrite (split_at_first H). eexists. split; [reflexivity|].
  split; [reflexivity|]. cbn [content].
  intros Hs. destruct H as [Hi _].
  destruct (split_clean_tail _ Hi Hs) as [_ ->].
  now apply trim_app_ws.
Qed.

Lemma twoBlocks_first : firstMarkerAt twoBlocks 1.
Proof.
  split; [reflexivity|].
  intros j Hj. destruct j as [|j]; [reflexivity | lia].
Defined.

Lemma split_at_first_marker_witness :
  exists r, splitContentAndSources (JStr twoBlocks) = Returns r /\
            sources r = str "**Sources**" ++ [LF] ++ str "x" ++ sourcesMarker ++ str "y" /\
            content r = str "A".
Proof.
  destruct (split_at_first_marker twoBlocks_first) as (r & Hr & Hs & Hc).
  exists r. split; [exact Hr|]. split.
  - rewrite Hs. reflexivity.
  - rewrite Hc; reflexivity.
Defined.

(** The text before the block is not what [content] holds when the
    input ends in white space: the prefix is cut by the length of the
    trimmed sources, which is shorter than the matched text by more
    than the two line feeds. *)
Example split_trailing_line_feed :
  splitContentAndSources (JStr (str "A" ++ sourcesMarker)) =
  Returns (mkSplit (str "A" ++ [LF; LF] ++ str "*") (str "**Sources**")).
Proof. reflexivity. Qed.

(** C5, as stated, fails: without a sources block the returned
    [content] is the input as it is, not the input trimmed. *)
Lemma split_untrimmed_counterexample :
  noMarker (str " a ") /\
  exists r, splitContentAndSources (JStr (str " a ")) = Returns r /\
            sources r = [] /\
            content r <> trim (str " a ").
Proof.
  split.
  - intros j. do 4 (destruct j as [|j]; [reflexivity|]). reflexivity.
  - eexists. split; [reflexivity|]. split; [reflexivity|].
    vm_compute. discriminate.
Qed.

(** C5, amended: when the input is [before], a blank line and a block
    that starts at the first marker, and does not end in white space,
    [content], the two line feeds and [sources] concatenated are
    [before] trimmed, the two line feeds and the block; when the input
    has no marker, [sources] is empty and [content] is the input
    unchanged. *)
Theorem split_round_trip (s : jsstring) :
  (noMarker s -> splitContentAndSources (JStr s) = Returns (mkSplit s [])) /\
  (forall before block,
      s = before ++ [LF; LF] ++ block ->
      firstMarkerAt s (length before) ->
      trimEnd s = s ->
      exists r, splitContentAndSources (JStr s) = Returns r /\
                content r ++ [LF; LF] ++ sources r =
                trim before ++ [LF; LF] ++ block).
Proof.
  split.
  - intros H. unfold splitContentAndSources.
    now rewrite (sourcesRegexMatch_none H).
  - intros before block Hs Hfirst Hend.
    rewrite (split_at_first Hfirst). eexists. split; [reflexivity|].
    cbn [content sources].
    destruct Hfirst as [Hi _].
    destruct (split_clean_tail _ Hi Hend) as [-> ->].
    rewrite trim_app_ws by reflexivity.
    rewrite Hs at 1 2.
    rewrite firstn_app, firstn_all, Nat.sub_diag. cbn [firstn].
    rewrite app_nil_r. do 2 f_equal.
    replace (length before + 2) with (length (before ++ [LF; LF]))
      by (rewrite length_app; reflexivity).
    rewrite app_assoc. apply skipn_app_length.
Qed.

Lemma answerNoSources_noMarker : noMarker answerNoSources.
Proof.
  intros j. do 18 (destruct j as [|j]; [reflexivity|]). reflexivity.
Defined.

Lemma answerWithSources_first : firstMarkerAt answerWithSources 6.
Proof.
  split; [reflexivity|].
  intros j Hj. do 6 (destruct j as [|j]; [reflexivity|]). lia.
Defined.

Lemma split_round_trip_witness :
  splitContentAndSources (JStr answerNoSources) =
    Returns (mkSplit answerNoSources []) /\
  exists r, splitContentAndSources (JStr answerWithSources) = Returns r /\
            content r ++ [LF; LF] ++ sources r = answerWithSources.
Proof.
  split.
  - apply (proj1 (split_round_trip answerNoSources)).
    exact answerNoSources_noMarker.
  - destruct (proj2 (split_round_trip answerWithSources)
                (str "Answer")
                (str "**Sources**" ++ [LF] ++ str "- [Test](https://test.com)")
                eq_refl answerWithSources_first eq_refl)
      as (r & Hr & Hcat).
    exists r. split; [exact Hr|]. rewrite Hcat. reflexivity.
Defined.

(** C9: a non-empty [sources] starts with [**Sources**] and has no
    white space at its start or at its end. *)
Theorem split_sources_shape (s : jsstring) (r : SplitResult) :
  splitContentAndSources (JStr s) = Returns r ->
  sources r <> [] ->
  startsWith (str "**Sources**") (sources r) = true /\
  (forall c rest, sources r = c :: rest -> isWhiteSpace c = false) /\
  (forall front c, sources r = front ++ [c] -> isWhiteSpace c = false).
Proof.
  unfold splitContentAndSources.
  destruct (sourcesRegexMatch s) as [m|] eqn:E.
  - intros H _. injection H as <-. cbn [sources].
    split; [|split].
    + destruct (sourcesRegexMatch_some s E) as (i & [Hi _] & ->).
      destruct (startsWith_app _ _ Hi) as [rest ->].
      rewrite trim_sources_block. reflexivity.
    + intros c rest. apply trim_no_leading.
    + intros front c. apply trim_no_trailing.
  - intros H Hne. injection H as <-. now contradiction Hne.
Qed.

Lemma split_sources_shape_witness :
  startsWith (str "**Sources**")
    (str "**Sources**" ++ [LF] ++ str "- [Test](https://test.com)") = true /\
  isWhiteSpace "*"%char = false /\ isWhiteSpace ")"%char = false.
Proof.
  destruct (@split_sources_shape answerWithSources _ eq_refl) as (H1 & H2 & H3).
  - discriminate.
  - split; [exact H1|]. split.
    + exact (H2 "*"%char _ eq_refl).
    + exact (H3 (str "**Sources**" ++ [LF] ++ str "- [Test](https://test.com") ")"%char eq_refl).
Defined.

(** Called on anything but a string, the function raises. *)
Lemma split_non_string_throws (c : JsValue) :
  typeofString c = false -> splitContentAndSources c = Throws TypeError.
Proof. destruct c; try reflexivity; discriminate. Qed.

(** C8: on every string the function returns; a [content] that is
    absent or not a string never reaches it, the caller's guard gives
    what a result with both fields empty would give. *)
Theorem split_total_and_guarded (c : JsValue) :
  (typeofString c = true -> exists r, splitContentAndSources c = Returns r) /\
  (typeofString c = false ->
   forall st, markdownStage c st = afterSplit (mkSplit [] []) st).
Proof.
  split.
  - destruct c as [| | | |s| |]; try discriminate. intros _.
    unfold splitContentAndSources.
    destruct (sourcesRegexMatch s); eexists; reflexivity.
  - intros H st. unfold markdownStage. rewrite H, andb_false_r. reflexivity.
Qed.

Lemma split_total_and_guarded_witness :
  (exists r, splitContentAndSources (JStr []) = Returns r) /\
  markdownStage JUndefined emptyAcc = afterSplit (mkSplit [] []) emptyAcc /\
  markdownStage JNull emptyAcc = afterSplit (mkSplit [] []) emptyAcc /\
  markdownStage (JNum 7) emptyAcc = afterSplit (mkSplit [] []) emptyAcc.
Proof.
  split; [|split; [|split]].
  - exact (proj1 (split_total_and_guarded (JStr [])) eq_refl).
  - exact (proj2 (split_total_and_guarded JUndefined) eq_refl emptyAcc).
  - exact (proj2 (split_total_and_guarded JNull) eq_refl emptyAcc).
  - exact (proj2 (split_total_and_guarded (JNum 7)) eq_refl emptyAcc).
Defined.

(** ** Facts about the link pattern *)

Lemma spanNot_app (c : ascii) (run rest : jsstring) :
  ~ In c run -> spanNot c (run ++ c :: rest) = (run, c :: rest).
Proof.
  induction run as [|x run IH]; simpl; intros H.
  - now rewrite Ascii.eqb_refl.
  - destruct (Ascii.eqb_spec x c) as [->|Hx]; [exfalso; now apply H; left|].
    rewrite IH; [reflexivity|]. intros E. apply H. now right.
Qed.

Lemma matchLinkHere_complete (s : jsstring) (m : LinkMatch) :
  linkAtHead s m -> matchLinkHere s = Some m.
Proof.
  destruct m as [lbl dst rest]. unfold linkAtHead. cbn [label dest after].
  intros (-> & Hl & Nl & Hd & Nd).
  change (str "[" ++ lbl ++ str "](" ++ dst ++ str ")" ++ rest)
    with ("["%char :: lbl ++ "]"%char :: "("%char :: dst ++ ")"%char :: rest).
  unfold matchLinkHere.
  rewrite spanNot_app by exact Nl. destruct lbl as [|l0 lbl]; [contradiction|].
  rewrite spanNot_app by exact Nd. destruct dst as [|d0 dst]; [contradiction|].
  reflexivity.
Qed.

Lemma markdownLinkRegex_exec_nonempty (s : jsstring) (m : LinkMatch) :
  markdownLinkRegex_exec s = Some m -> label m <> [] /\ dest m <> [].
Proof.
  induction s as [|c s IH]; rewrite markdownLinkRegex_exec_eq.
  - destruct (matchLinkHere []) eqn:E; discriminate.
  - destruct (matchLinkHere (c :: s)) as [m'|] eqn:E.
    + intros H; injection H as <-.
      apply matchLinkHere_sound in E. unfold linkAtHead in E. tauto.
    + exact IH.
Qed.

(** The result of [exec] is the leftmost match. *)
Lemma markdownLinkRegex_exec_leftmost (s : jsstring) (m : LinkMatch) :
  markdownLinkRegex_exec s = Some m ->
  exists i, matchLinkHere (skipn i s) = Some m /\
            forall j, j < i -> matchLinkHere (skipn j s) = None.
Proof.
  induction s as [|c s IH]; rewrite markdownLinkRegex_exec_eq.
  - destruct (matchLinkHere []) eqn:E; discriminate.
  - destruct (matchLinkHere (c :: s)) as [m'|] eqn:E.
    + intros H; injection H as <-. exists 0. split; [exact E|]. lia.
    + intros H. destruct (IH H) as (i & Hi & Hlt).
      exists (S i). split; [exact Hi|].
      intros [|j] Hj; [exact E|]. apply Hlt. lia.
Qed.

(** Every match is a link that stands somewhere in the text. *)
Lemma markdownLinkRegex_exec_occurs (s : jsstring) (m : LinkMatch) :
  markdownLinkRegex_exec s = Some m ->
  exists pre rest, s = pre ++ rest /\ linkAtHead rest m.
Proof.
  intros H. destruct (markdownLinkRegex_exec_leftmost s H) as (i & Hi & _).
  exists (firstn i s), (skipn i s). split.
  - symmetry. apply firstn_skipn.
  - now apply matchLinkHere_sound.
Qed.

Lemma markdownLinks_eq (s : jsstring) :
  markdownLinks s =
  match markdownLinkRegex_exec s with
  | None => []
  | Some m => m :: markdownLinks (after m)
  end.
Proof.
  funelim (markdownLinks s).
  - now rewrite Hm.
  - now rewrite e.
Qed.

Lemma execLoop_eq (s : jsstring) (acc : list UrlCitation) :
  execLoop s acc =
  match markdownLinkRegex_exec s with
  | None => acc
  | Some m =>
      execLoop (after m)
        (if truthy (JStr (dest m)) && startsWith (str "http") (dest m) then
           acc ++ [markdownCitation (label m) (dest m)]
         else acc)
  end.
Proof.
  funelim (execLoop s acc).
  - now rewrite Hm.
  - now rewrite e.
Qed.

Lemma markdownLinks_nonempty (s : jsstring) (m : LinkMatch) :
  In m (markdownLinks s) -> label m <> [] /\ dest m <> [].
Proof.
  remember (length s) as n eqn:Hn. revert s Hn.
  induction n as [n IH] using lt_wf_ind. intros s -> .
  rewrite markdownLinks_eq.
  destruct (markdownLinkRegex_exec s) as [m'|] eqn:E; [|contradiction].
  intros [<-|Hin].
  - exact (markdownLinkRegex_exec_nonempty s E).
  - exact (IH _ (markdownLinkRegex_exec_shorter s E) _ eq_refl Hin).
Qed.

Lemma markdownLinks_occur (s : jsstring) (m : LinkMatch) :
  In m (markdownLinks s) ->
  exists pre rest, s = pre ++ rest /\ linkAtHead rest m.
Proof.
  remember (length s) as n eqn:Hn. revert s Hn.
  induction n as [n IH] using lt_wf_ind. intros s -> .
  rewrite markdownLinks_eq.
  destruct (markdownLinkRegex_exec s) as [m'|] eqn:E; [|contradiction].
  intros [<-|Hin].
  - now apply markdownLinkRegex_exec_occurs.
  - destruct (IH _ (markdownLinkRegex_exec_shorter s E) _ eq_refl Hin)
      as (pre & rest & Hafter & Hlink).
    destruct (markdownLinkRegex_exec_occurs s E) as (pre' & rest' & -> & Hhead).
    destruct Hhead as (-> & _).
    rewrite Hafter.
    exists (pre' ++ str "[" ++ label m' ++ str "](" ++ dest m' ++ str ")" ++ pre), rest.
    split; [|exact Hlink].
    now rewrite <- !app_assoc.
Qed.

(** No match starts in text that has no opening bracket. *)
Lemma exec_skips_plain (pre s : jsstring) :
  ~ In "["%char pre ->
  markdownLinkRegex_exec (pre ++ s) = markdownLinkRegex_exec s \/
  (s = [] /\ markdownLinkRegex_exec (pre ++ s) = None).
Proof.
  induction pre as [|c pre IH]; intros H; [now left|].
  assert (matchLinkHere ((c :: pre) ++ s) = None) as Hnone.
  { simpl. destruct (Ascii.eqb_spec c "["%char) as [->|Hc].
    - exfalso. apply H. now left.
    - destruct c as [[] [] [] [] [] [] [] []]; try reflexivity. congruence. }
  rewrite markdownLinkRegex_exec_eq, Hnone. cbn [app].
  apply IH. intros Hin. apply H. now right.
Qed.


Lemma http_guard (d : jsstring) :
  truthy (JStr d) && startsWith (str "http") d = startsWith (str "http") d.
Proof. destruct d; reflexivity. Qed.

(** The loop pushes, in order, the citation of every match that has an
    [http] destination. *)
Lemma execLoop_links (s : jsstring) (acc : list UrlCitation) :
  execLoop s acc =
  acc ++ map citationOfLink (filter isHttpLink (markdownLinks s)).
Proof.
  remember (length s) as n eqn:Hn. revert s acc Hn.
  induction n as [n IH] using lt_wf_ind. intros s acc -> .
  rewrite execLoop_eq, markdownLinks_eq.
  destruct (markdownLinkRegex_exec s) as [m|] eqn:E.
  - rewrite (IH _ (markdownLinkRegex_exec_shorter s E) _ _ eq_refl).
    rewrite http_guard. cbn [filter]. unfold isHttpLink at 2.
    destruct (startsWith (str "http") (dest m)); cbn [map].
    + now rewrite <- app_assoc.
    + reflexivity.
  - cbn. now rewrite app_nil_r.
Qed.

Lemma parseMarkdownSources_links (s : jsstring) :
  parseMarkdownSources s =
  map citationOfLink (filter isHttpLink (markdownLinks s)).
Proof.
  unfold parseMarkdownSources. destruct s as [|c s].
  - reflexivity.
  - cbn [truthy negb]. now rewrite execLoop_links.
Qed.

(** ** parseMarkdownSources: the claims *)




(** C6: the citations are those of the matched links whose destination
    starts with [http], in order; a matched link has its citation in
    the result if and only if its destination starts with [http]; and
    of [[F](file:///x) [H](https://h.com)], two links, one citation
    remains. *)
Theorem markdown_http_only (text : jsstring) :
  parseMarkdownSources text =
    map citationOfLink (filter isHttpLink (markdownLinks text)) /\
  (forall m, In m (markdownLinks text) ->
     (In (citationOfLink m) (parseMarkdownSources text) <->
      startsWith (str "http") (dest m) = true)) /\
  map dest (markdownLinks fileAndHttpLinks) =
    [str "file:///x"; str "https://h.com"] /\
  parseMarkdownSources fileAndHttpLinks =
    [mkCitation (JStr (str "https://h.com")) (Some (JStr (str "H"))) None].
Proof.
  split; [apply parseMarkdownSources_links|].
  split; [|split; reflexivity].
  intros m Hm. rewrite parseMarkdownSources_links, in_map_iff. split.
  - intros (m' & Heq & Hin). apply filter_In in Hin as [_ Hhttp].
    unfold citationOfLink, markdownCitation in Heq.
    injection Heq as Hd _. unfold isHttpLink in Hhttp. now rewrite <- Hd.
  - intros Hhttp. exists m. split; [reflexivity|].
    apply filter_In. now split.
Qed.

Lemma markdown_http_only_witness :
  (In (citationOfLink (mkLink (str "H") (str "https://h.com") []))
      (parseMarkdownSources fileAndHttpLinks) <->
   startsWith (str "http") (str "https://h.com") = true) /\
  (In (citationOfLink (mkLink (str "F") (str "file:///x") (str " [H](https://h.com)")))
      (parseMarkdownSources fileAndHttpLinks) <->
   startsWith (str "http") (str "file:///x") = true).
Proof.
  destruct (markdown_http_only fileAndHttpLinks) as (_ & Hiff & _).
  split.
  - apply (Hiff (mkLink (str "H") (str "https://h.com") [])).
    right. left. reflexivity.
  - apply (Hiff (mkLink (str "F") (str "file:///x") (str " [H](https://h.com)"))).
    left. reflexivity.
Defined.

(** C10: a citation from markdown has no [snippet] and a non-empty
    string as [title]. *)
Theorem markdown_citation_shape (text : jsstring) (c : UrlCitation) :
  In c (parseMarkdownSources text) ->
  snippet c = None /\
  exists t, title c = Some (JStr t) /\ t <> [].
Proof.
  rewrite parseMarkdownSources_links, in_map_iff.
  intros (m & <- & Hin). apply filter_In in Hin as [Hin _].
  destruct (markdownLinks_nonempty text m Hin) as [Hl _].
  split; [reflexivity|]. exists (label m). split; [|exact Hl].
  unfold citationOfLink, markdownCitation. cbn [title truthy].
  destruct (label m); [contradiction | reflexivity].
Qed.

Lemma markdown_citation_shape_witness :
  snippet (mkCitation (JStr (str "https://h.com")) (Some (JStr (str "H"))) None) = None /\
  exists t, Some (JStr (str "H")) = Some (JStr t) /\ t <> [].
Proof.
  apply (@markdown_citation_shape fileAndHttpLinks
           (mkCitation (JStr (str "https://h.com")) (Some (JStr (str "H"))) None)).
  left. reflexivity.
Defined.

(** ** Facts about the url set and first-wins merging *)

Lemma sameValueZero_eq (a b : JsValue) : sameValueZero a b = true -> a = b.
Proof.
  destruct a, b; try discriminate; try reflexivity; simpl; intros H.
  - apply Bool.eqb_prop in H. now subst.
  - apply Z.eqb_eq in H. now subst.
  - unfold jsstring_eqb in H.
    destruct (list_eq_dec ascii_dec s s0); [now subst | discriminate].
Qed.

Lemma sameValueZero_str (a b : jsstring) :
  sameValueZero (JStr a) (JStr b) = true <-> a = b.
Proof.
  simpl. unfold jsstring_eqb.
  destruct (list_eq_dec ascii_dec a b); split; congruence.
Qed.

Lemma sameValueZero_sym (a b : JsValue) :
  sameValueZero a b = sameValueZero b a.
Proof.
  destruct (sameValueZero a b) eqn:E1, (sameValueZero b a) eqn:E2; try reflexivity.
  - pose proof (sameValueZero_eq _ _ E1). subst. congruence.
  - pose proof (sameValueZero_eq _ _ E2). subst. congruence.
Qed.

Lemma setHas_add (s : UrlSet) (u x : JsValue) :
  setHas (setAdd s u) x = setHas s x || sameValueZero x u.
Proof.
  unfold setAdd. destruct (setHas s u) eqn:E.
  - destruct (sameValueZero x u) eqn:Ex.
    + apply sameValueZero_eq in Ex. subst. now rewrite E.
    + now rewrite orb_false_r.
  - unfold setHas. rewrite existsb_app. simpl. now rewrite orb_false_r.
Qed.

Lemma mergeAll_app (l1 l2 : list UrlCitation) (st : Acc) :
  mergeAll (l1 ++ l2) st = mergeAll l2 (mergeAll l1 st).
Proof. apply fold_left_app. Qed.

Lemma mergeAll_citations (l : list UrlCitation) (st : Acc) :
  citations (mergeAll l st) = citations st ++ firstWinsFrom (seenUrls st) l.
Proof.
  revert st. induction l as [|c l IH]; intros st; simpl.
  - now rewrite app_nil_r.
  - unfold mergeAll in IH. rewrite IH. unfold mergeInto.
    destruct (setHas (seenUrls st) (url c)); [reflexivity|].
    simpl. now rewrite <- app_assoc.
Qed.

Lemma mergeAll_cons (c : UrlCitation) (l : list UrlCitation) (st : Acc) :
  mergeAll (c :: l) st = mergeAll l (mergeInto st c).
Proof. reflexivity. Qed.

(** Merging what a first-wins pass kept is merging the whole list. *)
Lemma mergeAll_firstWins (l : list UrlCitation) (st : Acc) :
  mergeAll (firstWinsFrom (seenUrls st) l) st = mergeAll l st.
Proof.
  revert st. induction l as [|c l IH]; intros st; [reflexivity|].
  cbn [firstWinsFrom]. rewrite (mergeAll_cons c l).
  destruct (setHas (seenUrls st) (url c)) eqn:E.
  - rewrite IH. unfold mergeInto. now rewrite E.
  - rewrite mergeAll_cons. unfold mergeInto. rewrite E.
    exact (IH (pushCitation c st)).
Qed.

Lemma firstWinsFrom_unseen (seen : UrlSet) (l : list UrlCitation) (c : UrlCitation) :
  In c (firstWinsFrom seen l) -> setHas seen (url c) = false.
Proof.
  revert seen. induction l as [|x l IH]; intros seen; [contradiction|].
  cbn [firstWinsFrom]. destruct (setHas seen (url x)) eqn:E.
  - apply IH.
  - intros [<-|Hin]; [exact E|].
    apply IH in Hin. rewrite setHas_add in Hin.
    now apply orb_false_iff in Hin.
Qed.

Lemma firstWinsFrom_distinct (seen : UrlSet) (l : list UrlCitation) :
  ForallOrdPairs (fun a b => sameValueZero (url a) (url b) = false)
    (firstWinsFrom seen l).
Proof.
  revert seen. induction l as [|x l IH]; intros seen; [constructor|].
  cbn [firstWinsFrom]. destruct (setHas seen (url x)); [apply IH|].
  constructor; [|apply IH].
  apply Forall_forall. intros c Hin.
  apply firstWinsFrom_unseen in Hin. rewrite setHas_add in Hin.
  apply orb_false_iff in Hin as [_ Hin]. now rewrite sameValueZero_sym.
Qed.

Lemma ordPairs_split {A : Type} (R : A -> A -> Prop) (pre mid post : list A) (x y : A) :
  ForallOrdPairs R (pre ++ x :: mid ++ y :: post) -> R x y.
Proof.
  induction pre as [|p pre IH]; simpl; intros H; inversion H; subst.
  - match goal with F : Forall _ _ |- _ =>
      rewrite Forall_forall in F; apply F end.
    apply in_or_app. right. now left.
  - now apply IH.
Qed.

Lemma firstWinsFrom_first (seen : UrlSet) (l : list UrlCitation) (c : UrlCitation) :
  In c (firstWinsFrom seen l) ->
  exists before rest,
    l = before ++ c :: rest /\
    forall b, In b before -> sameValueZero (url b) (url c) = false.
Proof.
  revert seen. induction l as [|x l IH]; intros seen; [contradiction|].
  cbn [firstWinsFrom]. destruct (setHas seen (url x)) eqn:E.
  - intros Hin. pose proof (firstWinsFrom_unseen _ _ _ Hin) as Hc.
    destruct (IH _ Hin) as (before & rest & -> & Hb).
    exists (x :: before), rest. split; [reflexivity|].
    intros b [<-|Hin']; [|now apply Hb].
    destruct (sameValueZero (url x) (url c)) eqn:Eb; [|reflexivity].
    apply sameValueZero_eq in Eb. congruence.
  - intros [<-|Hin].
    + exists [], l. split; [reflexivity|]. intros b [].
    + pose proof (firstWinsFrom_unseen _ _ _ Hin) as Hc.
      rewrite setHas_add in Hc. apply orb_false_iff in Hc as [_ Hc].
      destruct (IH _ Hin) as (before & rest & -> & Hb).
      exists (x :: before), rest. split; [reflexivity|].
      intros b [<-|Hin']; [|now apply Hb].
      now rewrite sameValueZero_sym.
Qed.

(** ** The extractors as first-wins merges *)

Lemma getProp_prop (v : JsValue) (k : string) :
  isNullish v = false -> getProp v k = Returns (prop v k).
Proof. destruct v; try reflexivity; discriminate. Qed.

Lemma truthy_not_nullish (v : JsValue) : truthy v = true -> isNullish v = false.
Proof. destruct v; try reflexivity; discriminate. Qed.

Lemma isRecord_not_nullish (v : JsValue) : isRecord v = true -> isNullish v = false.
Proof.
  unfold isRecord. intros H. apply andb_true_iff in H as [H _].
  now apply truthy_not_nullish.
Qed.

Lemma forOf_merge {A : Type} (body : A -> Acc -> outcome Acc)
      (cands : A -> list UrlCitation) :
  (forall x st, body x st = Returns (mergeAll (cands x) st)) ->
  forall xs st, forOf body xs st = Returns (mergeAll (flat_map cands xs) st).
Proof.
  intros Hbody xs. induction xs as [|x xs IH]; intros st; simpl.
  - reflexivity.
  - rewrite Hbody. simpl. rewrite IH. now rewrite mergeAll_app.
Qed.

Lemma mergeAll_one (c : UrlCitation) (st : Acc) :
  mergeAll [c] st =
  if negb (setHas (seenUrls st) (url c)) then pushCitation c st else st.
Proof.
  unfold mergeAll, mergeInto. simpl.
  now destruct (setHas (seenUrls st) (url c)).
Qed.

Lemma format1Step_merge (c : JsValue) (st : Acc) :
  format1Step c st =
  Returns (mergeAll (if hasUrl c then [citationFrom c] else []) st).
Proof.
  unfold format1Step, hasUrl.
  destruct (truthy c) eqn:Ec; [|reflexivity].
  rewrite !getProp_prop by now apply truthy_not_nullish.
  cbn [bind andb].
  destruct (truthy (prop c "url")); [|reflexivity].
  rewrite mergeAll_one. cbn [andb citationFrom url].
  now destruct (setHas (seenUrls st) (prop c "url")).
Qed.

Lemma rule1_flat_map (a : JsValue) :
  rule1 a =
  flat_map (fun c => if hasUrl c then [citationFrom c] else [])
    (arrayElems (prop a "url_citations")).
Proof.
  unfold rule1. induction (arrayElems (prop a "url_citations")) as [|c l IH].
  - reflexivity.
  - simpl. destruct (hasUrl c); simpl; now rewrite IH.
Qed.

Lemma format1_merge (a : JsValue) (st : Acc) :
  isNullish a = false -> format1 a st = Returns (mergeAll (rule1 a) st).
Proof.
  intros Ha. unfold format1. rewrite getProp_prop by exact Ha. cbn [bind].
  rewrite rule1_flat_map.
  destruct (isArray (prop a "url_citations")) eqn:E.
  - apply forOf_merge. apply format1Step_merge.
  - destruct (prop a "url_citations"); try reflexivity; discriminate.
Qed.

Lemma format2_merge (a : JsValue) (st : Acc) :
  isNullish a = false -> format2 a st = Returns (mergeAll (rule2 a) st).
Proof.
  intros Ha. unfold format2, rule2, hasUrl.
  rewrite getProp_prop by exact Ha. cbn [bind].
  destruct (truthy (prop a "url_citation")) eqn:E; [|reflexivity].
  rewrite !getProp_prop by now apply truthy_not_nullish.
  cbn [bind andb].
  destruct (truthy (prop (prop a "url_citation") "url")); [|reflexivity].
  rewrite mergeAll_one. cbn [citationFrom url].
  now destruct (setHas (seenUrls st) (prop (prop a "url_citation") "url")).
Qed.

Lemma format3_merge (a : JsValue) (st : Acc) :
  isNullish a = false -> format3 a st = Returns (mergeAll (rule3 a) st).
Proof.
  intros Ha. unfold format3, rule3.
  rewrite !getProp_prop by exact Ha. cbn [bind].
  destruct (truthy (prop a "url")); [|reflexivity].
  rewrite mergeAll_one. cbn [andb citationFrom url].
  now destruct (setHas (seenUrls st) (prop a "url")).
Qed.

Lemma annotationStep_merge (a : JsValue) (st : Acc) :
  annotationStep a st =
  Returns (mergeAll (if isRecord a then rule1 a ++ rule2 a ++ rule3 a else []) st).
Proof.
  unfold annotationStep.
  replace (negb (truthy a) || negb (typeofObject a)) with (negb (isRecord a))
    by (unfold isRecord; now destruct (truthy a), (typeofObject a)).
  destruct (isRecord a) eqn:E; [|reflexivity]. cbn [negb].
  pose proof (isRecord_not_nullish a E) as Ha.
  rewrite format1_merge by exact Ha. cbn [bind].
  rewrite format2_merge by exact Ha. cbn [bind].
  rewrite format3_merge by exact Ha.
  now rewrite !mergeAll_app.
Qed.

Lemma extractUrlCitations_firstWins (annotations : JsValue) :
  extractUrlCitations annotations =
  Returns (firstWins (annotationCandidates annotations)).
Proof.
  unfold extractUrlCitations, annotationCandidates.
  destruct (negb (truthy annotations) || negb (isArray annotations)) eqn:E.
  - destruct annotations; try reflexivity; discriminate.
  - rewrite (forOf_merge _ _ annotationStep_merge). cbn [bind].
    now rewrite mergeAll_citations.
Qed.

Lemma mergeLoop (l : list UrlCitation) (st : Acc) :
  forOf mergeStep l st = Returns (mergeAll l st).
Proof.
  revert st. induction l as [|c l IH]; intros st; [reflexivity|].
  cbn [forOf]. rewrite mergeAll_cons. unfold mergeStep at 1, mergeInto.
  destruct (setHas (seenUrls st) (url c)); cbn [negb bind]; apply IH.
Qed.

Lemma annotationStage_merge (message : JsValue) (st : Acc) :
  isNullish message = false ->
  seenUrls st = [] ->
  annotationStage message st =
  Returns (mergeAll (annotationCandidates (prop message "annotations")) st).
Proof.
  intros Hm Hst. unfold annotationStage.
  rewrite getProp_prop by exact Hm. cbn [bind].
  destruct (truthy (prop message "annotations")) eqn:E.
  - rewrite extractUrlCitations_firstWins. cbn [bind].
    rewrite mergeLoop. unfold firstWins. rewrite <- Hst.
    now rewrite mergeAll_firstWins.
  - destruct (prop message "annotations"); try reflexivity; discriminate.
Qed.

Lemma markdownStage_merge (c : JsValue) (st : Acc) :
  markdownStage c st = Returns (mergeAll (markdownCandidates c) st).
Proof.
  unfold markdownStage, markdownCandidates, sourcesOf.
  destruct c as [| |b|n|s| |]; try reflexivity.
  - now rewrite andb_false_r.
  - now rewrite andb_false_r.
  - destruct s as [|x s]; [reflexivity|].
    cbn [truthy typeofString andb].
    unfold splitContentAndSources.
    destruct (sourcesRegexMatch (x :: s)) as [m|]; cbn [bind]; unfold afterSplit;
      cbn [sources].
    + destruct (trim m) eqn:E; [reflexivity|]. cbn [truthy]. apply mergeLoop.
    + reflexivity.
Qed.

(** The aggregator on a message that is not [null] or [undefined]. *)
Lemma extractAllUrlCitations_firstWins (message : JsValue) :
  isNullish message = false ->
  extractAllUrlCitations message = Returns (firstWins (combinedCandidates message)).
Proof.
  intros Hm. unfold extractAllUrlCitations, combinedCandidates.
  rewrite annotationStage_merge by (exact Hm || reflexivity). cbn [bind].
  rewrite getProp_prop by exact Hm. cbn [bind].
  rewrite markdownStage_merge. cbn [bind].
  rewrite <- mergeAll_app, mergeAll_citations. reflexivity.
Qed.

(** ** The extractors: the claims *)

(** C1 fails on the code: the first statement of the aggregator reads
    [message.annotations], and on [null] or [undefined] that read raises
    a [TypeError]; no empty sequence is returned. *)
Theorem extractAll_absent_message_throws :
  extractAllUrlCitations JNull = Throws TypeError /\
  extractAllUrlCitations JUndefined = Throws TypeError.
Proof. split; reflexivity. Qed.

(** On every other message the aggregator returns. *)
Lemma extractAll_returns (message : JsValue) :
  isNullish message = false ->
  exists out, extractAllUrlCitations message = Returns out.
Proof.
  intros H. eexists. now apply extractAllUrlCitations_firstWins.
Qed.

(** C7: the extractor returns the citations of the three rules, rule 1
    before rule 2 before rule 3 within an element, elements in input
    order, first occurrence of a url kept; an element that is not a
    record gives none, and all three rules apply to one element. *)
Theorem extractUrlCitations_order (annotations : JsValue) :
  extractUrlCitations annotations =
    Returns (firstWins
      (flat_map (fun a => if isRecord a then rule1 a ++ rule2 a ++ rule3 a else [])
         (arrayElems annotations))) /\
  extractUrlCitations (JArr [threeRules; obj1 "url" (JStr (str "u0"))]) =
    Returns (map (fun u => mkCitation (JStr (str u)) (Some JUndefined) (Some JUndefined))
               ["u1"; "u2"; "u3"; "u0"]%string).
Proof.
  split; [apply extractUrlCitations_firstWins | reflexivity].
Qed.

(** C2: on a message the aggregator returns for, the result is the
    first-wins pass over the combined candidates (those of the
    annotations in their order, then those of the markdown sources):
    no two of its citations have the same url, as strings exactly; each
    is, fields and all, the first candidate with its url. *)
Theorem extractAll_dedup_first_wins (message : JsValue) :
  isNullish message = false ->
  exists out,
    extractAllUrlCitations message = Returns out /\
    out = firstWins (combinedCandidates message) /\
    (forall pre c mid c' post,
        out = pre ++ c :: mid ++ c' :: post ->
        sameValueZero (url c) (url c') = false /\
        forall u, url c = JStr u -> url c' <> JStr u) /\
    (forall c, In c out ->
        exists before rest,
          combinedCandidates message = before ++ c :: rest /\
          forall b, In b before -> sameValueZero (url b) (url c) = false).
Proof.
  intros Hm. exists (firstWins (combinedCandidates message)).
  split; [now apply extractAllUrlCitations_firstWins|].
  split; [reflexivity|]. split.
  - intros pre c mid c' post Hout.
    assert (sameValueZero (url c) (url c') = false) as Hd.
    { apply (@ordPairs_split _ (fun a b => sameValueZero (url a) (url b) = false)
               pre mid post).
      rewrite <- Hout. apply firstWinsFrom_distinct. }
    split; [exact Hd|].
    intros u Hu Hu'. rewrite Hu, Hu' in Hd.
    assert (sameValueZero (JStr u) (JStr u) = true) by now apply sameValueZero_str.
    congruence.
  - intros c Hin. now apply firstWinsFrom_first with (seen := []).
Qed.

Lemma extractAll_dedup_first_wins_witness :
  exists out,
    extractAllUrlCitations sameUrlTwice = Returns out /\
    out = [mkCitation (JStr (str "https://example.com"))
             (Some (JStr (str "Example"))) (Some (JStr (str "About it")))].
Proof.
  destruct (@extractAll_dedup_first_wins sameUrlTwice eq_refl)
    as (out & Hr & Hout & _).
  exists out. split; [exact Hr|]. rewrite Hout. reflexivity.
Defined.

(** ** Further properties of extractUrlCitations *)

Lemma firstWinsFrom_incl (seen : UrlSet) (l : list UrlCitation) (c : UrlCitation) :
  In c (firstWinsFrom seen l) -> In c l.
Proof.
  revert seen. induction l as [|x l IH]; intros seen; [contradiction|].
  cbn [firstWinsFrom]. destruct (setHas seen (url x)).
  - intros H. right. now apply IH in H.
  - intros [<-|H]; [now left | right; now apply IH in H].
Qed.

Lemma annotationCandidates_truthy (v : JsValue) (c : UrlCitation) :
  In c (annotationCandidates v) -> truthy (url c) = true.
Proof.
  unfold annotationCandidates. rewrite in_flat_map.
  intros (a & _ & Hin). destruct (isRecord a); [|contradiction].
  apply in_app_or in Hin as [H1|Hin]; [|apply in_app_or in Hin as [H2|H3]].
  - unfold rule1 in H1. apply in_map_iff in H1 as (x & <- & Hx).
    apply filter_In in Hx as [_ Hx]. unfold hasUrl in Hx.
    now apply andb_true_iff in Hx as [_ Hx].
  - unfold rule2 in H2.
    destruct (hasUrl (prop a "url_citation")) eqn:E; [|contradiction].
    destruct H2 as [<-|[]]. unfold hasUrl in E.
    now apply andb_true_iff in E as [_ E].
  - unfold rule3 in H3.
    destruct (truthy (prop a "url")) eqn:E; [|contradiction].
    now destruct H3 as [<-|[]].
Qed.

(** X1: The extractor raises on no value at all, gives the empty sequence
    on anything that is not an array, and every citation it returns has
    a url that is truthy. *)
Theorem extractUrlCitations_safe (annotations : JsValue) :
  exists out,
    extractUrlCitations annotations = Returns out /\
    (isArray annotations = false -> out = []) /\
    (forall c, In c out -> truthy (url c) = true).
Proof.
  exists (firstWins (annotationCandidates annotations)).
  split; [apply extractUrlCitations_firstWins|]. split.
  - intros H. destruct annotations; try reflexivity; discriminate.
  - intros c Hin. apply firstWinsFrom_incl in Hin.
    now apply annotationCandidates_truthy in Hin.
Qed.

Lemma extractUrlCitations_safe_witness :
  exists out, extractUrlCitations (JStr (str "not an array")) = Returns out /\ out = [].
Proof.
  destruct (extractUrlCitations_safe (JStr (str "not an array")))
    as (out & Hr & Hempty & _).
  exists out. split; [exact Hr | exact (Hempty eq_refl)].
Defined.

(** X2: No two citations the extractor returns have the same url; two
    urls that are strings differ as strings. *)
Theorem extractUrlCitations_distinct (annotations : JsValue)
        (out pre mid post : list UrlCitation) (c c' : UrlCitation) :
  extractUrlCitations annotations = Returns out ->
  out = pre ++ c :: mid ++ c' :: post ->
  sameValueZero (url c) (url c') = false /\
  forall u, url c = JStr u -> url c' <> JStr u.
Proof.
  rewrite extractUrlCitations_firstWins. intros H Hout. injection H as <-.
  assert (sameValueZero (url c) (url c') = false) as Hd.
  { apply (@ordPairs_split _ (fun a b => sameValueZero (url a) (url b) = false)
             pre mid post).
    rewrite <- Hout. apply firstWinsFrom_distinct. }
  split; [exact Hd|].
  intros u Hu Hu'. rewrite Hu, Hu' in Hd.
  assert (sameValueZero (JStr u) (JStr u) = true) by now apply sameValueZero_str.
  congruence.
Qed.

Lemma extractUrlCitations_distinct_witness :
  sameValueZero (JStr (str "https://a.com")) (JStr (str "https://b.com")) = false.
Proof.
  apply (@extractUrlCitations_distinct twoAnnotations
           [mkCitation (JStr (str "https://a.com")) (Some JUndefined) (Some JUndefined);
            mkCitation (JStr (str "https://b.com")) (Some JUndefined) (Some JUndefined)]
           [] [] []
           (mkCitation (JStr (str "https://a.com")) (Some JUndefined) (Some JUndefined))
           (mkCitation (JStr (str "https://b.com")) (Some JUndefined) (Some JUndefined))
           eq_refl eq_refl).
Defined.

Lemma firstWins_app (l1 l2 : list UrlCitation) :
  firstWins (l1 ++ l2) =
  firstWins l1 ++ firstWinsFrom (seenUrls (mergeAll l1 emptyAcc)) l2.
Proof.
  unfold firstWins.
  change (firstWinsFrom [] (l1 ++ l2))
    with (citations emptyAcc ++ firstWinsFrom (seenUrls emptyAcc) (l1 ++ l2)).
  rewrite <- mergeAll_citations, mergeAll_app, !mergeAll_citations.
  reflexivity.
Qed.

Lemma annotationCandidates_app (a b : list JsValue) :
  annotationCandidates (JArr (a ++ b)) =
  annotationCandidates (JArr a) ++ annotationCandidates (JArr b).
Proof. unfold annotationCandidates. cbn [arrayElems]. apply flat_map_app. Qed.

(** X3: Annotations that arrive later change nothing of what was extracted
    before: the citations of a longer array start with the citations of
    the shorter one. *)
Theorem extractUrlCitations_prefix (a b : list JsValue) :
  exists out rest,
    extractUrlCitations (JArr a) = Returns out /\
    extractUrlCitations (JArr (a ++ b)) = Returns (out ++ rest).
Proof.
  rewrite !extractUrlCitations_firstWins, annotationCandidates_app, firstWins_app.
  eexists. eexists. split; reflexivity.
Qed.

(** X4: Elements that are not records ([null], [undefined], numbers,
    strings, booleans) count for nothing: without them the result is
    the same. *)
Theorem extractUrlCitations_ignores_non_records (elems : list JsValue) :
  extractUrlCitations (JArr elems) =
  extractUrlCitations (JArr (filter isRecord elems)).
Proof.
  rewrite !extractUrlCitations_firstWins. do 2 f_equal.
  unfold annotationCandidates. cbn [arrayElems].
  induction elems as [|x l IH]; [reflexivity|].
  cbn [flat_map filter]. destruct (isRecord x) eqn:E.
  - cbn [flat_map]. rewrite E. now rewrite IH.
  - exact IH.
Qed.

(** ** Further properties of parseMarkdownSources *)

Lemma startsWith_refl_app (p z : jsstring) : startsWith p (p ++ z) = true.
Proof.
  induction p as [|a p IH]; [reflexivity|].
  simpl. now rewrite Ascii.eqb_refl.
Qed.

(** X5: Every citation from markdown has a string url that starts with
    [http] and holds no closing parenthesis, and a string title that
    holds no closing bracket: a destination is cut at its first closing
    parenthesis. *)
Theorem markdown_citation_fields (text : jsstring) (c : UrlCitation) :
  In c (parseMarkdownSources text) ->
  exists t u,
    title c = Some (JStr t) /\ url c = JStr u /\
    startsWith (str "http") u = true /\
    ~ In ")"%char u /\ ~ In "]"%char t.
Proof.
  rewrite parseMarkdownSources_links, in_map_iff.
  intros (m & <- & Hin). apply filter_In in Hin as [Hin Hhttp].
  destruct (markdownLinks_occur text m Hin) as (pre & rest & _ & Hlink).
  destruct Hlink as (_ & Hl & Nl & _ & Nd).
  exists (label m), (dest m).
  split; [|split; [reflexivity|split; [exact Hhttp|split; assumption]]].
  unfold citationOfLink, markdownCitation. cbn [title truthy].
  destruct (label m); [contradiction | reflexivity].
Qed.

Lemma markdown_citation_fields_witness :
  exists t u,
    Some (JStr (str "Foo")) = Some (JStr t) /\
    JStr (str "https://en.wikipedia.org/wiki/Foo_(bar") = JStr u /\
    startsWith (str "http") u = true /\
    ~ In ")"%char u /\ ~ In "]"%char t.
Proof.
  apply (@markdown_citation_fields wikiLink
           (mkCitation (JStr (str "https://en.wikipedia.org/wiki/Foo_(bar"))
              (Some (JStr (str "Foo"))) None)).
  left. reflexivity.
Defined.

(** X6: Text with no opening bracket before a well-formed link is passed
    over; the link gives its citation when its destination starts with
    [http] and none otherwise; the scan goes on after the link.  Equal
    links are not merged here. *)
Theorem markdown_first_link (pre l d rest : jsstring) :
  ~ In "["%char pre ->
  l <> [] -> ~ In "]"%char l ->
  d <> [] -> ~ In ")"%char d ->
  parseMarkdownSources (pre ++ str "[" ++ l ++ str "](" ++ d ++ str ")" ++ rest) =
  (if startsWith (str "http") d then [mkCitation (JStr d) (Some (JStr l)) None]
   else []) ++ parseMarkdownSources rest.
Proof.
  intros Hpre Hl Nl Hd Nd.
  set (s := str "[" ++ l ++ str "](" ++ d ++ str ")" ++ rest).
  assert (markdownLinkRegex_exec (pre ++ s) = Some (mkLink l d rest)) as Hexec.
  { destruct (exec_skips_plain pre s Hpre) as [->|[Hs _]]; [|discriminate Hs].
    rewrite markdownLinkRegex_exec_eq.
    rewrite (@matchLinkHere_complete s (mkLink l d rest)); [reflexivity|].
    unfold linkAtHead. cbn [label dest after]. now repeat split. }
  rewrite !parseMarkdownSources_links, (markdownLinks_eq (pre ++ s)), Hexec.
  cbn [after filter]. unfold isHttpLink at 1. cbn [dest].
  destruct (startsWith (str "http") d); [|reflexivity].
  cbn [map app]. f_equal.
  unfold citationOfLink, markdownCitation. cbn [label dest truthy].
  destruct l; [contradiction | reflexivity].
Qed.

Lemma markdown_first_link_witness :
  parseMarkdownSources
    (str "- " ++ str "[" ++ str "T" ++ str "](" ++ str "https://t.com" ++ str ")" ++
     str " [T](https://t.com)") =
  [mkCitation (JStr (str "https://t.com")) (Some (JStr (str "T"))) None] ++
  parseMarkdownSources (str " [T](https://t.com)").
Proof.
  apply (@markdown_first_link (str "- ") (str "T") (str "https://t.com")
           (str " [T](https://t.com)")).
  - intros [H|[H|[]]]; discriminate H.
  - discriminate.
  - intros [H|[]]; discriminate H.
  - discriminate.
  - vm_compute. intuition discriminate.
Defined.

(** X7: A text that lacks one of the four delimiters of a link, an opening
    or closing bracket or an opening or closing parenthesis, gives no
    citation. *)
Theorem markdown_needs_delimiters (text : jsstring) :
  ~ In "["%char text \/ ~ In "]"%char text \/
  ~ In "("%char text \/ ~ In ")"%char text ->
  parseMarkdownSources text = [].
Proof.
  intros H. rewrite parseMarkdownSources_links.
  destruct (markdownLinks text) as [|m ms] eqn:E; [reflexivity|].
  exfalso.
  destruct (markdownLinks_occur text m) as (pre & rest & -> & Hlink).
  { rewrite E. now left. }
  destruct Hlink as (-> & _).
  destruct H as [H|[H|[H|H]]]; apply H;
    rewrite !in_app_iff; simpl; intuition auto.
Qed.

Lemma markdown_needs_delimiters_witness :
  parseMarkdownSources (str "(No title)[https://example.com") = [].
Proof.
  apply markdown_needs_delimiters. right. left.
  vm_compute. intuition discriminate.
Defined.

(** ** Further properties of splitContentAndSources *)

Lemma trimStart_decomp (s : jsstring) :
  exists a, s = a ++ trimStart s /\ allWhiteSpace a = true.
Proof.
  induction s as [|c s IH]; simpl.
  - now exists [].
  - destruct (isWhiteSpace c) eqn:E.
    + destruct IH as (a & Hs & Ha). exists (c :: a). split.
      * simpl. now f_equal.
      * simpl. now rewrite E.
    + now exists [].
Qed.

Lemma allWhiteSpace_rev (s : jsstring) :
  allWhiteSpace s = true -> allWhiteSpace (rev s) = true.
Proof.
  unfold allWhiteSpace. rewrite !forallb_forall.
  intros H x Hx. apply H. now apply in_rev.
Qed.

Lemma trimEnd_decomp (s : jsstring) :
  exists b, s = trimEnd s ++ b /\ allWhiteSpace b = true.
Proof.
  unfold trimEnd. destruct (trimStart_decomp (rev s)) as (a & Hs & Ha).
  exists (rev a). split; [|now apply allWhiteSpace_rev].
  rewrite <- rev_app_distr, <- Hs. now rewrite rev_involutive.
Qed.

Lemma trim_decomp (s : jsstring) :
  exists a b, s = a ++ trim s ++ b /\
              allWhiteSpace a = true /\ allWhiteSpace b = true.
Proof.
  unfold trim. destruct (trimStart_decomp s) as (a & Hs & Ha).
  destruct (trimEnd_decomp (trimStart s)) as (b & Ht & Hb).
  exists a, b. split; [|split; assumption].
  rewrite <- Ht. exact Hs.
Qed.

Lemma trim_length (s : jsstring) : length (trim s) <= length s.
Proof.
  destruct (trim_decomp s) as (a & b & Hs & _).
  rewrite Hs at 2. rewrite !length_app. lia.
Qed.

Lemma markerAt_bound (s : jsstring) (i : nat) :
  markerAt s i = true -> i + 14 <= length s.
Proof.
  unfold markerAt. intros H.
  destruct (startsWith_app _ _ H) as [rest Hrest].
  assert (length (skipn i s) = 14 + length rest) as Hlen
    by (rewrite Hrest, length_app; reflexivity).
  rewrite length_skipn in Hlen. lia.
Qed.

(** X8: The two parts are pieces of the input as it stands, [sources] with
    nothing but white space after it, and together they are not longer
    than the input. *)
Theorem split_parts_of_input (s : jsstring) (r : SplitResult) :
  splitContentAndSources (JStr s) = Returns r ->
  (exists pre post, s = pre ++ sources r ++ post /\ allWhiteSpace post = true) /\
  (exists pre post, s = pre ++ content r ++ post) /\
  length (content r) + length (sources r) <= length s.
Proof.
  unfold splitContentAndSources.
  destruct (sourcesRegexMatch s) as [m|] eqn:E; intros H; injection H as <-;
    cbn [content sources].
  - destruct (sourcesRegexMatch_some s E) as (i & _ & ->).
    pose proof (trim_length (skipn i s)) as Hlen.
    rewrite length_skipn in Hlen.
    unfold substring0.
    set (n := length s - length (trim (skipn i s))).
    split; [|split].
    + destruct (trim_decomp (skipn i s)) as (a & b & Hm & _ & Hb).
      exists (firstn i s ++ a), b. split; [|exact Hb].
      rewrite <- app_assoc, <- Hm. symmetry. apply firstn_skipn.
    + destruct (trim_decomp (firstn n s)) as (a & b & Hm & _).
      exists a, (b ++ skipn n s).
      rewrite <- (firstn_skipn n s) at 1. rewrite Hm at 1.
      now rewrite <- !app_assoc.
    + pose proof (trim_length (firstn n s)) as Hc.
      rewrite length_firstn in Hc. subst n. lia.
  - split; [|split].
    + exists s, []. now rewrite app_nil_r.
    + exists [], []. now rewrite app_nil_r.
    + simpl. lia.
Qed.

Lemma split_parts_of_input_witness :
  length (str "Answer") +
  length (str "**Sources**" ++ [LF] ++ str "- [Test](https://test.com)") <=
  length answerWithSources.
Proof.
  exact (proj2 (proj2 (@split_parts_of_input answerWithSources _ eq_refl))).
Defined.

(** X9: The cut of [content] in full: with the first marker at [i], it is
    the trimmed prefix of length [i + 2] plus the number of white space
    characters the input ends in.  So an input that ends in white space
    leaves the start of the sources block in [content]. *)
Theorem split_content_cut (s : jsstring) (i : nat) :
  firstMarkerAt s i ->
  exists r, splitContentAndSources (JStr s) = Returns r /\
            content r = trim (firstn (i + 2 + trailingWhiteSpace s) s).
Proof.
  intros H. rewrite (split_at_first H). eexists. split; [reflexivity|].
  cbn [content]. unfold substring0. f_equal. f_equal.
  destruct H as [Hi _]. pose proof (markerAt_bound s i Hi) as Hb.
  unfold markerAt in Hi. destruct (startsWith_app _ _ Hi) as [rest Hrest].
  pose proof (firstn_skipn i s) as Hsplit. rewrite Hrest in Hsplit.
  assert (length (firstn i s) = i) as Hlen by (apply firstn_length_le; lia).
  remember (firstn i s) as b eqn:Eb. clear Eb.
  assert (trimEnd s =
          (b ++ [LF; LF]) ++ str "**Sources*" ++ "*"%char :: trimEnd (LF :: rest))
    as Hend.
  { rewrite <- Hsplit.
    change (b ++ sourcesMarker ++ rest)
      with (b ++ [LF; LF] ++ str "**Sources*" ++ "*"%char :: LF :: rest).
    rewrite !app_assoc. rewrite trimEnd_app_keep by reflexivity.
    now rewrite <- !app_assoc. }
  unfold trailingWhiteSpace. rewrite Hend, Hrest, trim_sources_block.
  pose proof (trimEnd_decomp (LF :: rest)) as (w & Hw & _).
  assert (length (trimEnd (LF :: rest)) <= S (length rest)) as Hle.
  { apply (f_equal (@length ascii)) in Hw. rewrite length_app in Hw.
    simpl in Hw. lia. }
  rewrite <- Hsplit.
  repeat (rewrite length_app || rewrite length_cons).
  change (length sourcesMarker) with 14.
  change (length (str "**Sources**")) with 11.
  change (length (str "**Sources*")) with 10.
  change (length (@nil ascii)) with 0.
  lia.
Qed.

Lemma split_content_cut_witness :
  exists r,
    splitContentAndSources (JStr (str "A" ++ sourcesMarker ++ str "x  ")) = Returns r /\
    content r = str "A" ++ [LF; LF] ++ str "**".
Proof.
  destruct (@split_content_cut (str "A" ++ sourcesMarker ++ str "x  ") 1)
    as (r & Hr & Hc).
  - split; [reflexivity|].
    intros j Hj. destruct j as [|j]; [reflexivity | lia].
  - exists r. split; [exact Hr|]. rewrite Hc. reflexivity.
Defined.

Lemma markerAt_here (pfx sfx : jsstring) :
  markerAt (pfx ++ sourcesMarker ++ sfx) (length pfx) = true.
Proof.
  unfold markerAt. rewrite skipn_app_length. apply startsWith_refl_app.
Qed.

Lemma noMarker_trim_prefix (s : jsstring) (i : nat) :
  firstMarkerAt s i -> noMarker (trim (firstn i s)).
Proof.
  intros [Hi Hlt] j.
  destruct (markerAt (trim (firstn i s)) j) eqn:E; [exfalso | reflexivity].
  pose proof (markerAt_bound s i Hi) as Hb.
  destruct (trim_decomp (firstn i s)) as (a & b & Hab & _).
  unfold markerAt in E. destruct (startsWith_app _ _ E) as [r Hr].
  pose proof (firstn_skipn j (trim (firstn i s))) as Hy. rewrite Hr in Hy.
  assert (length (firstn i s) = i) as Hlen by (apply firstn_length_le; lia).
  rewrite <- Hy in Hab.
  set (y0 := firstn j (trim (firstn i s))) in *.
  assert (s = (a ++ y0) ++ sourcesMarker ++ (r ++ b ++ skipn i s)) as Hs.
  { rewrite <- (firstn_skipn i s) at 1. rewrite Hab at 1.
    now rewrite <- !app_assoc. }
  assert (markerAt s (length (a ++ y0)) = true) as Hm.
  { rewrite Hs at 1. apply markerAt_here. }
  rewrite Hlt in Hm; [discriminate|].
  rewrite <- Hlen, Hab. repeat rewrite length_app.
  change (length sourcesMarker) with 14. lia.
Qed.

(** X10: On an input that does not end in white space the split is stable:
    the returned [content] holds no sources marker, and splitting it
    again gives it back with empty [sources]. *)
Theorem split_content_stable (s : jsstring) (r : SplitResult) :
  trimEnd s = s ->
  splitContentAndSources (JStr s) = Returns r ->
  noMarker (content r) /\
  splitContentAndSources (JStr (content r)) = Returns (mkSplit (content r) []).
Proof.
  intros Hend Hr.
  assert (noMarker (content r)) as Hno.
  { destruct (marker_cases s) as [[i Hi]|Hnone].
    - rewrite (split_at_first Hi) in Hr. injection Hr as <-. cbn [content].
      destruct (split_clean_tail i (proj1 Hi) Hend) as [_ ->].
      rewrite trim_app_ws by reflexivity.
      now apply noMarker_trim_prefix.
    - unfold splitContentAndSources in Hr.
      rewrite (sourcesRegexMatch_none Hnone) in Hr. now injection Hr as <-. }
  split; [exact Hno|].
  unfold splitContentAndSources. now rewrite (sourcesRegexMatch_none Hno).
Qed.

Lemma split_content_stable_witness :
  splitContentAndSources (JStr (str "Answer")) = Returns (mkSplit (str "Answer") []).
Proof.
  exact (proj2 (@split_content_stable answerWithSources
                  (mkSplit (str "Answer")
                     (str "**Sources**" ++ [LF] ++ str "- [Test](https://test.com)"))
                  eq_refl eq_refl)).
Defined.

(** ** Further properties of extractAllUrlCitations *)

(** X11: The aggregator raises on [null] and [undefined] and on nothing
    else; on every other message it returns the first-wins pass over
    the combined candidates. *)
Theorem extractAll_outcome (message : JsValue) :
  extractAllUrlCitations message =
  if isNullish message then Throws TypeError
  else Returns (firstWins (combinedCandidates message)).
Proof.
  destruct (isNullish message) eqn:E.
  - destruct message; try discriminate; reflexivity.
  - now apply extractAllUrlCitations_firstWins.
Qed.

Lemma setHas_mergeAll (l : list UrlCitation) (st : Acc) (u : JsValue) :
  setHas (seenUrls (mergeAll l st)) u = setHas (seenUrls st) u || urlAmong u l.
Proof.
  revert st. induction l as [|c l IH]; intros st.
  - simpl. now rewrite orb_false_r.
  - rewrite mergeAll_cons, IH. unfold mergeInto. cbn [urlAmong existsb].
    fold (urlAmong u l).
    destruct (setHas (seenUrls st) (url c)) eqn:E.
    + destruct (sameValueZero u (url c)) eqn:Eu; [|reflexivity].
      apply sameValueZero_eq in Eu. subst. now rewrite E.
    + cbn [pushCitation seenUrls]. rewrite setHas_add. now rewrite orb_assoc.
Qed.

Lemma urlAmong_incl (u : JsValue) (l1 l2 : list UrlCitation) :
  (forall c, In c l1 -> In c l2) -> urlAmong u l2 = false -> urlAmong u l1 = false.
Proof.
  intros Hincl H. unfold urlAmong in *.
  destruct (existsb (fun c => sameValueZero u (url c)) l1) eqn:E; [|reflexivity].
  apply existsb_exists in E as (c & Hin & Hc).
  assert (existsb (fun c => sameValueZero u (url c)) l2 = true)
    by (apply existsb_exists; exists c; split; [now apply Hincl | exact Hc]).
  congruence.
Qed.

(** X12: What the annotations give comes first and whole: the result starts
    with the citations of [extractUrlCitations(message.annotations)],
    and what follows are citations of the markdown sources with urls
    that none of those has. *)
Theorem extractAll_annotations_first (message : JsValue) :
  isNullish message = false ->
  exists fromAnnotations rest,
    extractUrlCitations (prop message "annotations") = Returns fromAnnotations /\
    extractAllUrlCitations message = Returns (fromAnnotations ++ rest) /\
    forall c, In c rest ->
      In c (parseMarkdownSources (sourcesOf (prop message "content"))) /\
      urlAmong (url c) fromAnnotations = false.
Proof.
  intros Hm.
  exists (firstWins (annotationCandidates (prop message "annotations"))).
  eexists. split; [apply extractUrlCitations_firstWins|]. split.
  - rewrite extractAllUrlCitations_firstWins by exact Hm.
    unfold combinedCandidates. now rewrite firstWins_app.
  - intros c Hin. split.
    + now apply firstWinsFrom_incl in Hin.
    + apply firstWinsFrom_unseen in Hin. rewrite setHas_mergeAll in Hin.
      apply orb_false_iff in Hin as [_ Hin].
      revert Hin. apply urlAmong_incl.
      intros x. apply firstWinsFrom_incl.
Qed.

Lemma extractAll_annotations_first_witness :
  exists fromAnnotations rest,
    extractUrlCitations (prop sameUrlTwice "annotations") = Returns fromAnnotations /\
    extractAllUrlCitations sameUrlTwice = Returns (fromAnnotations ++ rest).
Proof.
  destruct (@extractAll_annotations_first sameUrlTwice eq_refl)
    as (a & rest & Ha & Hall & _).
  now exists a, rest.
Defined.

Lemma markdownCandidates_none (c : JsValue) :
  (forall s, c = JStr s -> noMarker s) -> markdownCandidates c = [].
Proof.
  intros H. unfold markdownCandidates, sourcesOf.
  destruct c as [| |b|n|s|l|f]; try reflexivity.
  unfold splitContentAndSources.
  now rewrite (sourcesRegexMatch_none (H s eq_refl)).
Qed.

(** X13: Links in the text count only below a sources marker: when
    [message.content] is not a string, or is a string without the
    marker, the aggregator returns what [extractUrlCitations] returns on
    [message.annotations], whatever links the text holds. *)
Theorem extractAll_without_sources (message : JsValue) :
  isNullish message = false ->
  (forall s, prop message "content" = JStr s -> noMarker s) ->
  extractAllUrlCitations message = extractUrlCitations (prop message "annotations").
Proof.
  intros Hm Hc.
  rewrite extractAllUrlCitations_firstWins by exact Hm.
  rewrite extractUrlCitations_firstWins. unfold combinedCandidates.
  rewrite markdownCandidates_none by exact Hc. now rewrite app_nil_r.
Qed.

Lemma extractAll_without_sources_witness :
  extractAllUrlCitations linkOutsideSources = Returns [].
Proof.
  rewrite (@extractAll_without_sources linkOutsideSources eq_refl).
  - reflexivity.
  - intros s Hs. injection Hs as <-. intros j.
    do 32 (destruct j as [|j]; [reflexivity|]). reflexivity.
Defined.

(** X14: Without an array of annotations the result is the markdown
    citations of the sources block, first occurrence of each url. *)
Theorem extractAll_markdown_only (message : JsValue) :
  isNullish message = false ->
  isArray (prop message "annotations") = false ->
  extractAllUrlCitations message =
  Returns (firstWins (parseMarkdownSources (sourcesOf (prop message "content")))).
Proof.
  intros Hm Ha. rewrite extractAllUrlCitations_firstWins by exact Hm.
  unfold combinedCandidates, annotationCandidates.
  destruct (prop message "annotations"); try reflexivity; discriminate.
Qed.

Lemma extractAll_markdown_only_witness :
  extractAllUrlCitations sameLinkTwice =
  Returns [mkCitation (JStr (str "https://t.com")) (Some (JStr (str "One"))) None].
Proof.
  rewrite (@extractAll_markdown_only sameLinkTwice eq_refl eq_refl).
  reflexivity.
Defined.

Lemma combinedCandidates_truthy (message : JsValue) (c : UrlCitation) :
  In c (combinedCandidates message) -> truthy (url c) = true.
Proof.
  unfold combinedCandidates. intros H. apply in_app_or in H as [H|H].
  - now apply annotationCandidates_truthy in H.
  - unfold markdownCandidates in H.
    rewrite parseMarkdownSources_links, in_map_iff in H.
    destruct H as (m & <- & Hin). apply filter_In in Hin as [_ Hhttp].
    unfold isHttpLink in Hhttp. cbn [citationOfLink markdownCitation url truthy].
    destruct (dest m); [discriminate | reflexivity].
Qed.

(** ** Properties of the UrlCitations component *)

Lemma isValidCitation_outcome (c : JsValue) :
  isValidCitation c =
  if isNull c then Throws TypeError else Returns (isShown c).
Proof. destruct c; reflexivity. Qed.

Lemma filterArr_outcome (xs : list JsValue) :
  filterArr isValidCitation xs =
  if existsb isNull xs then Throws TypeError else Returns (filter isShown xs).
Proof.
  induction xs as [|x xs IH]; [reflexivity|].
  cbn [filterArr existsb filter]. rewrite isValidCitation_outcome.
  destruct (isNull x); [reflexivity|]. cbn [bind orb]. rewrite IH.
  destruct (existsb isNull xs); [reflexivity|]. cbn [bind].
  now destruct (isShown x).
Qed.

(** X15: The list the component shows: on an array that holds [null] the
    filter raises a [TypeError] (the test of [typeof] lets [null]
    through to the read of [url]); on any other array it is the first
    ten elements, in order, that are objects with a truthy [url]. *)
Theorem validCitations_outcome (xs : list JsValue) :
  validCitations (JArr xs) =
  if existsb isNull xs then Throws TypeError
  else Returns (firstn 10 (filter isShown xs)).
Proof.
  unfold validCitations. rewrite filterArr_outcome.
  now destruct (existsb isNull xs).
Qed.

(** X16: Whatever the component shows is at most ten entries, each one an
    object of the input with a truthy [url]. *)
Theorem validCitations_bounded (citations0 : JsValue) (shown : list JsValue) :
  validCitations citations0 = Returns shown ->
  length shown <= 10 /\
  forall c, In c shown ->
    In c (arrayElems citations0) /\ typeofObject c = true /\
    isNull c = false /\ truthy (prop c "url") = true.
Proof.
  destruct citations0 as [| |b|n|s|xs|f]; try discriminate.
  - intros H. injection H as <-. split; [simpl; lia | contradiction].
  - unfold validCitations. rewrite filterArr_outcome.
    destruct (existsb isNull xs) eqn:E; [discriminate|]. cbn [bind].
    intros H.
    assert (shown = firstn 10 (filter isShown xs)) as -> by congruence.
    split.
    + apply firstn_le_length.
    + intros c Hin.
      assert (In c (filter isShown xs)) as Hin'.
      { rewrite <- (firstn_skipn 10 (filter isShown xs)).
        apply in_or_app. now left. }
      clear Hin. rename Hin' into Hin.
      apply filter_In in Hin as [Hin Hs]. unfold isShown in Hs.
      apply andb_true_iff in Hs as [Ho Hu].
      repeat split; try assumption.
      destruct (isNull c) eqn:Ec; [|reflexivity].
      assert (existsb isNull xs = true)
        by (apply existsb_exists; now exists c).
      congruence.
Qed.

Lemma validCitations_bounded_witness :
  length [cite2 "https://valid.com" "Valid"] <= 10.
Proof.
  apply (@validCitations_bounded
           (JArr [cite2 "https://valid.com" "Valid";
                  JObj [("url"%string, JStr []); ("title"%string, JStr (str "no url"))];
                  JUndefined])
           [cite2 "https://valid.com" "Valid"] eq_refl).
Defined.

Lemma citationObject_shown (c : UrlCitation) :
  truthy (url c) = true ->
  isShown (citationObject c) = true /\ isNull (citationObject c) = false.
Proof.
  intros H. unfold isShown, citationObject. cbn. now rewrite H.
Qed.

(** X17: The component drops nothing of what the aggregator returns, it only
    cuts the list at ten: every citation of the result is an object
    with a truthy url. *)
Theorem validCitations_of_extractAll (message : JsValue) :
  isNullish message = false ->
  exists out,
    extractAllUrlCitations message = Returns out /\
    (forall c, In c out -> truthy (url c) = true) /\
    validCitations (JArr (map citationObject out)) =
      Returns (firstn 10 (map citationObject out)).
Proof.
  intros Hm. exists (firstWins (combinedCandidates message)).
  split; [now apply extractAllUrlCitations_firstWins|].
  assert (forall c, In c (firstWins (combinedCandidates message)) ->
                    truthy (url c) = true) as Htruthy.
  { intros c Hin. apply firstWinsFrom_incl in Hin.
    now apply combinedCandidates_truthy in Hin. }
  split; [exact Htruthy|].
  unfold validCitations. rewrite filterArr_outcome.
  assert (existsb isNull (map citationObject (firstWins (combinedCandidates message))) = false
          /\ filter isShown (map citationObject (firstWins (combinedCandidates message))) =
             map citationObject (firstWins (combinedCandidates message))) as [-> ->];
    [|reflexivity].
  induction (firstWins (combinedCandidates message)) as [|c l IH]; [now split|].
  destruct (citationObject_shown c) as [Hs Hn]; [apply Htruthy; now left|].
  destruct IH as [IH1 IH2]; [intros c0 Hc0; apply Htruthy; now right|].
  cbn [map existsb filter]. rewrite Hs, Hn, IH1, IH2. now split.
Qed.

Lemma validCitations_of_extractAll_witness :
  exists out,
    extractAllUrlCitations sameUrlTwice = Returns out /\
    validCitations (JArr (map citationObject out)) =
      Returns (firstn 10 (map citationObject out)).
Proof.
  destruct (@validCitations_of_extractAll sameUrlTwice eq_refl)
    as (out & Hr & _ & Hv).
  now exists out.
Defined.

(** X18: A citation that comes from markdown is shown under its own link
    text, a non-empty string; the placeholder does not replace it. *)
Theorem linkText_of_markdown (text : jsstring) (c : UrlCitation) :
  In c (parseMarkdownSources text) ->
  exists t, title c = Some (JStr t) /\ t <> [] /\
            linkText (citationObject c) = Returns (JStr t).
Proof.
  rewrite parseMarkdownSources_links, in_map_iff.
  intros (m & <- & Hin). apply filter_In in Hin as [Hin _].
  destruct (markdownLinks_nonempty text m Hin) as [Hl _].
  exists (label m). unfold citationOfLink, markdownCitation, linkText, citationObject.
  cbn. destruct (label m); [contradiction|].
  repeat split. discriminate.
Qed.

Lemma linkText_of_markdown_witness :
  exists t, Some (JStr (str "H")) = Some (JStr t) /\ t <> [] /\
            linkText (citationObject
              (mkCitation (JStr (str "https://h.com")) (Some (JStr (str "H"))) None)) =
            Returns (JStr t).
Proof.
  apply (@linkText_of_markdown fileAndHttpLinks
           (mkCitation (JStr (str "https://h.com")) (Some (JStr (str "H"))) None)).
  left. reflexivity.
Defined.
